(** * iss_spotter: the three lookups of [iss.js] and their orchestrator

    A shallow embedding of [src/iss.js].  The program is written in
    continuation-passing style over the [request] library: every function
    takes a Node-style callback [(error, result) => ...] and hands its
    outcome to it.  The embedding keeps that shape.  Computations live in a
    small state-and-exception monad whose state is the trace of observable
    events (network requests issued, completion-callback invocations), so
    that "which lookups ran" and "how often was the callback invoked" are
    statements about the trace. *)

From Stdlib Require Import ZArith List String Ascii Bool Lia.
From Stdlib Require Import DecimalString DecimalZ DecimalPos.
From Stdlib Require Import Floats.SpecFloat.
Import ListNotations.
Open Scope string_scope.

Set Warnings "-register-all".

(** * The program and its environment *)

(** ** JavaScript values *)

(** An [Error] object: its [name] ("Error", "SyntaxError", "TypeError", or
    whatever the transport layer reports) and its [message]. *)
Record js_error : Type := mkError { name : string; message : string }.

(** The values the program handles: whatever [JSON.parse] can return
    (numbers are IEEE-754 doubles, objects are their own properties in
    order), [undefined], and error objects. *)
Inductive value : Type :=
| VUndefined
| VNull
| VBool (b : bool)
| VNum (n : spec_float)
| VStr (s : string)
| VArr (elements : list value)
| VObj (properties : list (string * value))
| VError (err : js_error).

(** An error object is a value. *)
Coercion VError : js_error >-> value.

(** [Error(msg)], and the errors the language itself throws. *)
Definition Error (msg : string) : js_error := mkError "Error" msg.
Definition SyntaxError (msg : string) : js_error := mkError "SyntaxError" msg.
Definition TypeError (msg : string) : js_error := mkError "TypeError" msg.

(** ToBoolean: what [if (v)] and [!v] test. *)
Definition truthy (v : value) : bool :=
  match v with
  | VUndefined | VNull => false
  | VBool b => b
  | VNum (S754_zero _) | VNum S754_nan => false
  | VNum _ => true
  | VStr s => negb (s =? "")
  | VArr _ | VObj _ | VError _ => true
  end.

(** A step of the language itself (a property read, a string conversion,
    [JSON.parse]) either produces a value or throws an error object. *)
Variant result (A : Type) : Type :=
| Ok (a : A)
| Throw (e : js_error).
Arguments Ok {A} a.
Arguments Throw {A} e.

Fixpoint own_property (properties : list (string * value)) (p : string) : option value :=
  match properties with
  | [] => None
  | (k, v) :: rest => if k =? p then Some v else own_property rest p
  end.

(** Property read [v.p].  Reading from [undefined] or [null] throws a
    TypeError; an object answers with its own property; everything else
    answers [undefined].  The program only reads the names [ip], [success],
    [message], [latitude], [longitude] and [response]; apart from an error
    object's [message], none of them is supplied by a built-in prototype. *)
Definition get (v : value) (p : string) : result value :=
  match v with
  | VUndefined =>
      Throw (TypeError ("Cannot read properties of undefined (reading '" ++ p ++ "')"))
  | VNull =>
      Throw (TypeError ("Cannot read properties of null (reading '" ++ p ++ "')"))
  | VObj properties =>
      match own_property properties p with
      | Some x => Ok x
      | None => Ok VUndefined
      end
  | VError err => Ok (if p =? "message" then VStr (message err) else VUndefined)
  | VBool _ | VNum _ | VStr _ | VArr _ => Ok VUndefined
  end.

(** Rendering of an integer the way a template literal renders an integral
    number: decimal digits with a leading minus sign when negative. *)
Definition Z_toString (z : Z) : string := NilZero.string_of_int (Z.to_int z).

Definition result_bind {A B} (r : result A) (f : A -> result B) : result B :=
  match r with
  | Ok a => f a
  | Throw e => Throw e
  end.

(** Strings without a space: the rendering of an integer is one. *)
Fixpoint spaceless (s : string) : bool :=
  match s with
  | EmptyString => true
  | String c rest => negb (c =? " ")%char && spaceless rest
  end.

(** ** Events, completions and the computation monad *)

(** What an observer of one run sees: the URLs handed to [request.get], and
    the arguments of each invocation of the caller's completion callback. *)
Variant event : Type :=
| Request (url : string)
| Callback (error result : value).

Definition trace := list event.

Definition is_callback (ev : event) : bool :=
  match ev with
  | Callback _ _ => true
  | Request _ => false
  end.

(** How a computation ends.  [Threw] is an exception travelling up the
    current call stack (a [try] can catch it).  [Uncaught] is an exception
    that escaped a [request] callback: it was raised in a later turn of the
    event loop, no [try] of the program encloses it, and the process ends. *)
Variant completion (A : Type) : Type :=
| Returned (a : A)
| Threw (e : value)
| Uncaught (e : value).
Arguments Returned {A} a.
Arguments Threw {A} e.
Arguments Uncaught {A} e.

Definition M (A : Type) : Type := trace -> completion A * trace.

Definition ret {A} (a : A) : M A := fun t => (Returned a, t).

Definition bind {A B} (m : M A) (f : A -> M B) : M B :=
  fun t =>
    match m t with
    | (Returned a, t') => f a t'
    | (Threw e, t') => (Threw e, t')
    | (Uncaught e, t') => (Uncaught e, t')
    end.

Definition lift {A} (r : result A) : M A :=
  fun t =>
    match r with
    | Ok a => (Returned a, t)
    | Throw e => (Threw e, t)
    end.

(** [try { body } catch (error) { handler error }] *)
Definition try_catch {A} (body : M A) (handler : value -> M A) : M A :=
  fun t =>
    match body t with
    | (Threw e, t') => handler e t'
    | other => other
    end.

Notation "x <- m ;; k" := (bind m (fun x => k))
  (at level 61, m at next level, right associativity).

(** A Node-style callback [(error, result) => ...] as the lookups see it. *)
Definition callback_t : Type := value -> value -> M unit.

(** The caller's completion callback, seen from the program: all the program
    can observe of it is whether a call returns ([None]) or throws
    ([Some e]). *)
Definition handler_t : Type := value -> value -> option value.

(** Calling the caller's completion callback: the call is recorded, then the
    callback returns or throws. *)
Definition invoke (cb : handler_t) : callback_t :=
  fun error result t =>
    (match cb error result with
     | None => Returned tt
     | Some e => Threw e
     end, (t ++ [Callback error result])%list).

(** A completion callback that always returns. *)
Definition quiet : handler_t := fun _ _ => None.

(** ** The [request] library *)

Record response : Type := { statusCode : Z }.

(** [request.get(url, (error, response, body) => ...)] calls back exactly
    once: with an error object alone when the transport failed, otherwise
    with a null error, the response and its body as a string.  The test
    [if (error)] of the program is therefore the case distinction on
    [reply]. *)
Variant reply : Type :=
| TransportError (error : js_error)
| Replied (response : response) (body : string).

(** What [JSON.parse] does with a string: a value, or a thrown SyntaxError
    with some message. *)
Variant parsed : Type :=
| Parsed (data : value)
| Unparsable (msg : string).

(** ** The host environment *)

(** What the program runs on, none of which belongs to the repository: the
    built-in [JSON.parse], the decimal rendering of a finite non-zero double
    (Number::toString), and the network, which decides what [request.get]
    reports for a URL. *)
Record host : Type := {
  JSON_parse : string -> parsed;
  finite_toString : bool -> positive -> Z -> string;
  net : string -> reply
}.

(** ** The program *)

Section Program.

Variable h : host.

Definition JSON_parse_result (body : string) : result value :=
  match JSON_parse h body with
  | Parsed data => Ok data
  | Unparsable msg => Throw (SyntaxError msg)
  end.

Definition Number_toString (n : spec_float) : string :=
  match n with
  | S754_zero _ => "0"
  | S754_nan => "NaN"
  | S754_infinity false => "Infinity"
  | S754_infinity true => "-Infinity"
  | S754_finite s m e => finite_toString h s m e
  end.

(** ToString, as a template literal [`${v}`] applies it.  An array joins
    its elements with commas, [null] and [undefined] elements rendering as
    the empty string.  A plain object renders through
    [Object.prototype.toString], unless an own property named [toString]
    shadows it: no property of a parsed object is callable, so the
    conversion then throws a TypeError. *)
Fixpoint ToString (v : value) : result string :=
  match v with
  | VUndefined => Ok "undefined"
  | VNull => Ok "null"
  | VBool true => Ok "true"
  | VBool false => Ok "false"
  | VNum n => Ok (Number_toString n)
  | VStr s => Ok s
  | VArr elements =>
      let element x :=
        match x with
        | VUndefined | VNull => Ok ""
        | _ => ToString x
        end in
      (fix join (l : list value) : result string :=
         match l with
         | [] => Ok ""
         | [x] => element x
         | x :: rest =>
             result_bind (element x) (fun s =>
             result_bind (join rest) (fun r => Ok (s ++ "," ++ r)))
         end) elements
  | VObj properties =>
      match own_property properties "toString" with
      | Some _ => Throw (TypeError "Cannot convert object to primitive value")
      | None => Ok "[object Object]"
      end
  | VError err =>
      Ok (if name err =? "" then message err
          else if message err =? "" then name err
          else name err ++ ": " ++ message err)
  end.

(** [request.get(url, k)]: the request is issued, and [k] runs later, on a
    fresh stack, with what the network answered.  Nothing in the program
    follows a call of [request.get], so running [k] on the spot yields the
    same trace; an exception leaving [k] has no caller to return to and is
    [Uncaught]. *)
Definition request_get (url : string) (k : reply -> M unit) : M unit :=
  fun t =>
    match k (net h url) (t ++ [Request url])%list with
    | (Threw e, t') => (Uncaught e, t')
    | other => other
    end.

Definition fetchMyIP (callback : callback_t) : M unit :=
  request_get "https://api.ipify.org?format=json" (fun r =>
    match r with
    | TransportError error => callback error VNull
    | Replied response body =>
        if negb (statusCode response =? 200)%Z then
          let msg := "Status Code " ++ Z_toString (statusCode response)
                     ++ " when fetching IP. Response: " ++ body in
          callback (Error msg) VNull
        else
          try_catch
            (data <- lift (JSON_parse_result body) ;;
             ip <- lift (get data "ip") ;;
             callback VNull ip)
            (fun error => callback error VNull)
    end).

Definition fetchCoordsByIP (ip : value) (callback : callback_t) : M unit :=
  ip_text <- lift (ToString ip) ;;
  request_get ("https://ipwho.is/" ++ ip_text) (fun r =>
    match r with
    | TransportError error => callback error VNull
    | Replied response body =>
        try_catch
          (data <- lift (JSON_parse_result body) ;;
           success <- lift (get data "success") ;;
           if negb (truthy success) then
             success_text <- lift (ToString success) ;;
             message_text <- lift (result_bind (get data "message") ToString) ;;
             ip_text <- lift (result_bind (get data "ip") ToString) ;;
             let message := "Success status was " ++ success_text
                            ++ ". Server message says: " ++ message_text
                            ++ " when fetching for IP " ++ ip_text in
             callback (Error message) VNull
           else
             latitude <- lift (get data "latitude") ;;
             longitude <- lift (get data "longitude") ;;
             let coordinates :=
               VObj [("latitude", latitude); ("longitude", longitude)] in
             callback VNull coordinates)
          (fun error => callback error VNull)
    end).

Definition fetchISSFlyOverTimes (coords : value) (callback : callback_t) : M unit :=
  lat_text <- lift (result_bind (get coords "latitude") ToString) ;;
  lon_text <- lift (result_bind (get coords "longitude") ToString) ;;
  request_get ("https://iss-flyover.herokuapp.com/json/?lat=" ++ lat_text
               ++ "&lon=" ++ lon_text) (fun r =>
    match r with
    | TransportError error => callback error VNull
    | Replied response body =>
        if negb (statusCode response =? 200)%Z then
          let msg := "Status Code " ++ Z_toString (statusCode response)
                     ++ " when fetching IP. Response: " ++ body in
          callback (Error msg) VNull
        else
          try_catch
            (data <- lift (JSON_parse_result body) ;;
             response <- lift (get data "response") ;;
             callback VNull response)
            (fun error => callback error VNull)
    end).

Definition nextISSTimesForMyLocation (callback : callback_t) : M unit :=
  fetchMyIP (fun error ip =>
    if truthy error then callback error VNull
    else
      fetchCoordsByIP ip (fun error coords =>
        if truthy error then callback error VNull
        else
          fetchISSFlyOverTimes coords (fun error flyTimes =>
            if truthy error then callback error VNull
            else callback VNull flyTimes))).

(** *** The completion callback of [index.js] *)

(** The body of the loop: [datetime.setUTCSeconds(pass.risetime)] converts
    its argument to a number, which throws in the cases in which [ToString]
    does; then [pass.duration] is rendered into the line that is printed. *)
Definition print_pass (pass : value) : result unit :=
  result_bind (get pass "risetime") (fun risetime =>
  result_bind (ToString risetime) (fun _ =>
  result_bind (get pass "duration") (fun duration =>
  result_bind (ToString duration) (fun _ => Ok tt)))).

Fixpoint print_passes (passes : list value) : result unit :=
  match passes with
  | [] => Ok tt
  | pass :: rest => result_bind (print_pass pass) (fun _ => print_passes rest)
  end.

(** [(error, passTimes) => { if (error) return console.log(...);
    for (const pass of passTimes) { ... } }].  Printing is not part of the
    trace; what matters here is when the callback throws: [for ... of]
    needs an iterable, which among the values at hand only arrays and
    strings are (the characters of a string print without throwing). *)
Definition printPassTimes : handler_t :=
  fun error passTimes =>
    if truthy error then None
    else
      match passTimes with
      | VArr passes =>
          match print_passes passes with
          | Ok _ => None
          | Throw e => Some (VError e)
          end
      | VStr _ => None
      | _ => Some (VError (TypeError "passTimes is not iterable"))
      end.

End Program.

(** ** Observing a run *)

(** What one run adds to the trace, and how it ends. *)
Definition run (m : M unit) : completion unit * trace := m [].

(** What a lookup hands to its callback, read off a run against a callback
    that records its arguments and returns. *)
Definition outcome (lookup : callback_t -> M unit) : trace :=
  filter is_callback (snd (run (lookup (invoke quiet)))).

(** What an observer sees of one run of the orchestrator with completion
    callback [cb]. *)
Definition observed (h : host) (cb : handler_t) : trace :=
  snd (run (nextISSTimesForMyLocation h (invoke cb))).

(** A lookup fails with [e] when it calls back with the truthy error [e]
    (every failing path passes [null] as the result); it succeeds with [r]
    when it calls back with a null error and [r]. *)
Definition fails (lookup : callback_t -> M unit) (e : value) : Prop :=
  outcome lookup = [Callback e VNull] /\ truthy e = true.

Definition succeeds (lookup : callback_t -> M unit) (r : value) : Prop :=
  outcome lookup = [Callback VNull r].

(** An invocation of the completion callback is well-formed when one of its
    two arguments is [null]. *)
Definition is_null (v : value) : bool :=
  match v with
  | VNull => true
  | _ => false
  end.

Definition one_sided (ev : event) : bool :=
  match ev with
  | Callback error result => is_null error || is_null result
  | Request _ => true
  end.

(** What [v.p] evaluates to on an object. *)
Definition field (properties : list (string * value)) (p : string) : value :=
  match own_property properties p with
  | Some v => v
  | None => VUndefined
  end.

(** A computation is [oblivious] when it never looks at the trace it
    extends: started after any history, it ends the same way and appends
    the same events. *)
Definition oblivious {A} (m : M A) : Prop :=
  forall t, m t = (fst (m []), (t ++ snd (m []))%list).

Definition oblivious_callback (k : callback_t) : Prop :=
  forall e r, oblivious (k e r).

(** Every path through a lookup ends in one of three ways: the error
    branches outside the [try] (and the [catch] branch itself) call
    [callback(err, null)] unprotected; [fetchCoordsByIP] reports a payload
    that is not successful from inside its [try]; and success calls
    [callback(null, r)] from inside the [try], so that whatever the
    callback throws lands in the [catch], which calls it again. *)
Variant delivery : Type :=
| Fail (err : js_error)
| FailGuarded (err : js_error)
| Succeed (r : value).

Definition deliver (d : delivery) (k : callback_t) : M unit :=
  match d with
  | Fail err => k err VNull
  | FailGuarded err => try_catch (k err VNull) (fun error => k error VNull)
  | Succeed r => try_catch (k VNull r) (fun error => k error VNull)
  end.

Definition delivered (d : delivery) : event :=
  match d with
  | Fail err | FailGuarded err => Callback err VNull
  | Succeed r => Callback VNull r
  end.

Definition ip_endpoint : string := "https://api.ipify.org?format=json".
Definition geo_endpoint (ip_text : string) : string := "https://ipwho.is/" ++ ip_text.
Definition iss_endpoint (lat_text lon_text : string) : string :=
  "https://iss-flyover.herokuapp.com/json/?lat=" ++ lat_text ++ "&lon=" ++ lon_text.

(** ** Replies that differ in their status code *)

(** Two replies that differ at most in their status code. *)
Definition same_but_status (r1 r2 : reply) : Prop :=
  match r1, r2 with
  | TransportError e1, TransportError e2 => e1 = e2
  | Replied _ body1, Replied _ body2 => body1 = body2
  | _, _ => False
  end.

(** The host [h] on another network. *)
Definition with_net (h : host) (net' : string -> reply) : host :=
  {| JSON_parse := JSON_parse h; finite_toString := finite_toString h; net := net' |}.

(** ** A sample host *)

(** The bodies below are JSON texts; [quote] is the double-quote character. *)
Definition quote : string := String (ascii_of_nat 34) "".
Definition quoted (s : string) : string := quote ++ s ++ quote.

(** [{"ip":"1.2.3.4"}] *)
Definition ip_body : string := "{" ++ quoted "ip" ++ ":" ++ quoted "1.2.3.4" ++ "}".

(** [{"success":true,"latitude":37.1,"longitude":-122.1}] *)
Definition geo_body : string :=
  "{" ++ quoted "success" ++ ":true," ++ quoted "latitude" ++ ":37.1,"
  ++ quoted "longitude" ++ ":-122.1}".

(** [{"ip":"1.2.3.4","success":false,"message":"Invalid IP address"}] *)
Definition refusal_body : string :=
  "{" ++ quoted "ip" ++ ":" ++ quoted "1.2.3.4" ++ "," ++ quoted "success"
  ++ ":false," ++ quoted "message" ++ ":" ++ quoted "Invalid IP address" ++ "}".

(** [{"success":0}] *)
Definition zero_body : string := "{" ++ quoted "success" ++ ":0}".

(** [{"success":true}] *)
Definition bare_body : string := "{" ++ quoted "success" ++ ":true}".

(** [{"response":[{"risetime":134564234,"duration":600}]}] *)
Definition iss_body : string :=
  "{" ++ quoted "response" ++ ":[{" ++ quoted "risetime" ++ ":134564234,"
  ++ quoted "duration" ++ ":600}]}".

(** The doubles nearest to 37.1 and -122.1, and integers (a double is
    written by any mantissa and exponent that denote it). *)
Definition lat_37_1 : spec_float := S754_finite false 5221360817982669 (-47).
Definition lon_minus_122_1 : spec_float := S754_finite true 8592023664092774 (-46).
Definition integer (n : positive) : spec_float := S754_finite false n 0.

Definition sample_coordinates : value :=
  VObj [("latitude", VNum lat_37_1); ("longitude", VNum lon_minus_122_1)].

Definition sample_passes : value :=
  VArr [VObj [("risetime", VNum (integer 134564234)); ("duration", VNum (integer 600))]].

(** [JSON.parse] on the sample bodies; anything else is taken not to parse. *)
Definition sample_parse (body : string) : parsed :=
  if body =? ip_body then Parsed (VObj [("ip", VStr "1.2.3.4")])
  else if body =? geo_body then
    Parsed (VObj [("success", VBool true); ("latitude", VNum lat_37_1);
                  ("longitude", VNum lon_minus_122_1)])
  else if body =? refusal_body then
    Parsed (VObj [("ip", VStr "1.2.3.4"); ("success", VBool false);
                  ("message", VStr "Invalid IP address")])
  else if body =? zero_body then Parsed (VObj [("success", VNum (S754_zero false))])
  else if body =? bare_body then Parsed (VObj [("success", VBool true)])
  else if body =? iss_body then Parsed (VObj [("response", sample_passes)])
  else if body =? "{}" then Parsed (VObj [])
  else if body =? "null" then Parsed VNull
  else Unparsable ("Unexpected token in JSON: " ++ body).

(** Number::toString on the doubles of the samples. *)
Definition sample_toString (s : bool) (m : positive) (e : Z) : string :=
  (if s then "-" else "") ++
  (if (e =? 0)%Z then Z_toString (Zpos m)
   else if ((Zpos m =? 5221360817982669) && (e =? -47))%Z then "37.1"
   else if ((Zpos m =? 8592023664092774) && (e =? -46))%Z then "122.1"
   else "NaN").

(** A network given by a table; a host that is not listed cannot be
    resolved. *)
Fixpoint serve (table : list (string * reply)) (url : string) : reply :=
  match table with
  | [] => TransportError (mkError "Error" "getaddrinfo ENOTFOUND")
  | (u, r) :: rest => if u =? url then r else serve rest url
  end.

Definition ok (body : string) : reply := Replied {| statusCode := 200 |} body.

Definition sample_geo_url : string := geo_endpoint "1.2.3.4".
Definition sample_iss_url : string := iss_endpoint "37.1" "-122.1".

Definition net_down : string -> reply := serve [].

Definition net_ok : string -> reply :=
  serve [(ip_endpoint, ok ip_body); (sample_geo_url, ok geo_body);
         (sample_iss_url, ok iss_body)].

Definition net_refused : string -> reply :=
  serve [(ip_endpoint, ok ip_body); (sample_geo_url, ok refusal_body)].

Definition net_boom : string -> reply :=
  serve [(ip_endpoint, ok ip_body); (sample_geo_url, ok geo_body);
         (sample_iss_url, Replied {| statusCode := 500 |} "boom")].

Definition net_empty_overpass : string -> reply :=
  serve [(ip_endpoint, ok ip_body); (sample_geo_url, ok geo_body);
         (sample_iss_url, ok "{}")].

Definition net_empty_ip : string -> reply := serve [(ip_endpoint, ok "{}")].

Definition net_zero_success : string -> reply :=
  serve [(ip_endpoint, ok ip_body); (sample_geo_url, ok zero_body)].

Definition net_bare_success : string -> reply :=
  serve [(ip_endpoint, ok ip_body); (sample_geo_url, ok bare_body)].

Definition sample_ip : value := VStr "1.2.3.4".

(** The sample host on a given network. *)
Definition sample_host (network : string -> reply) : host :=
  {| JSON_parse := sample_parse; finite_toString := sample_toString; net := network |}.

(** The sample host when the geolocation service answers [{"success":0}],
    and when it answers [{"success":true}]. *)
Definition zero_host : host := sample_host net_zero_success.
Definition bare_host : host := sample_host net_bare_success.

(** A completion callback that fails while handling a successful result. *)
Definition failing_display : handler_t :=
  fun error passTimes =>
    if truthy error then None else Some (VError (Error "cannot display")).

(** The errors and payloads the sample runs meet. *)
Definition enotfound : js_error := mkError "Error" "getaddrinfo ENOTFOUND".

Definition boom_error : js_error :=
  Error "Status Code 500 when fetching IP. Response: boom".

Definition refusal_error : js_error :=
  Error ("Success status was false. Server message says: Invalid IP address"
         ++ " when fetching for IP 1.2.3.4").

(** An IP service that is up and refuses. *)
Definition net_unavailable : string -> reply :=
  serve [(ip_endpoint, Replied {| statusCode := 503 |} "Service Unavailable")].

Definition refusal_payload : value :=
  VObj [("ip", VStr "1.2.3.4"); ("success", VBool false);
        ("message", VStr "Invalid IP address")].

(** A network that answers every request alike. *)
Definition always (code : Z) (body : string) : string -> reply :=
  fun _ => Replied {| statusCode := code |} body.

Definition zero_payload : value := VObj [("success", VNum (S754_zero false))].

Definition bare_payload : value := VObj [("success", VBool true)].

(** A completion callback that throws whatever it is handed. *)
Definition always_failing : handler_t :=
  fun _ _ => Some (VError (Error "cannot display")).

(** ** Reading a trace *)

Definition is_request (ev : event) : bool := negb (is_callback ev).

(** The network requests of a trace, and its callback invocations. *)
Definition requests_of (t : trace) : trace := filter is_request t.
Definition calls_of (t : trace) : trace := filter is_callback t.

(** What an observer sees of one run of a lookup whose callback is the
    completion callback [cb]. *)
Definition lookup_trace (lookup : callback_t -> M unit) (cb : handler_t) : trace :=
  snd (run (lookup (invoke cb))).

(** A lookup calls back, with completion callback [cb]: once or twice, the
    first time with a null error or a null result, and a second time only
    after [cb] threw. *)
Definition calls_back (cb : handler_t) (lookup : callback_t -> M unit) : Prop :=
  exists e r extra,
    calls_of (lookup_trace lookup cb) = Callback e r :: extra /\
    is_null e || is_null r = true /\
    List.length extra <= 1 /\
    (cb e r = None -> extra = []).

(** An overpass window as the overpass service lists it:
    [{ risetime: <number>, duration: <number> }]. *)
Definition pass_record (window : spec_float * spec_float) : value :=
  VObj [("risetime", VNum (fst window)); ("duration", VNum (snd window))].

(** ** More sample hosts *)

(** An object whose own [toString] is not a function: it cannot be rendered
    as text. *)
Definition unrenderable : value := VObj [("toString", VNull)].

Definition cannot_convert : js_error :=
  TypeError "Cannot convert object to primitive value".

(** [{"ip":{"toString":null}}] *)
Definition odd_ip_body : string :=
  "{" ++ quoted "ip" ++ ":{" ++ quoted "toString" ++ ":null}}".

(** [{"success":true,"latitude":{"toString":null}}] *)
Definition odd_geo_body : string :=
  "{" ++ quoted "success" ++ ":true," ++ quoted "latitude" ++ ":{"
  ++ quoted "toString" ++ ":null}}".

Definition odd_coordinates : value :=
  VObj [("latitude", unrenderable); ("longitude", VUndefined)].

(** [JSON.parse] on these two bodies as well. *)
Definition odd_parse (body : string) : parsed :=
  if body =? odd_ip_body then Parsed (VObj [("ip", unrenderable)])
  else if body =? odd_geo_body then
    Parsed (VObj [("success", VBool true); ("latitude", unrenderable)])
  else sample_parse body.

Definition odd_host (network : string -> reply) : host :=
  {| JSON_parse := odd_parse; finite_toString := sample_toString; net := network |}.

Definition net_odd_ip : string -> reply := serve [(ip_endpoint, ok odd_ip_body)].

Definition net_odd_geo : string -> reply :=
  serve [(ip_endpoint, ok ip_body); (sample_geo_url, ok odd_geo_body)].

(** A body that is no JSON text, and the error [sample_parse] reports. *)
Definition html_body : string := "<html>".
Definition unexpected_token : js_error :=
  SyntaxError "Unexpected token in JSON: <html>".

(** The overpass windows of [sample_passes]. *)
Definition sample_windows : list (spec_float * spec_float) :=
  [(integer 134564234, integer 600)].

(** ** Hosts and callbacks for the refusal path *)

(** A completion callback that does [throw undefined]. *)
Definition throws_undefined : handler_t := fun _ _ => Some VUndefined.

(** What reading [coords.latitude] throws when [coords] is [null]. *)
Definition latitude_of_null : js_error :=
  TypeError "Cannot read properties of null (reading 'latitude')".

(** [{"success":false,"message":"Invalid IP address","ip":{"toString":null}}] *)
Definition odd_refusal_body : string :=
  "{" ++ quoted "success" ++ ":false," ++ quoted "message" ++ ":"
  ++ quoted "Invalid IP address" ++ "," ++ quoted "ip" ++ ":{"
  ++ quoted "toString" ++ ":null}}".

Definition odd_refusal_payload : value :=
  VObj [("success", VBool false); ("message", VStr "Invalid IP address");
        ("ip", unrenderable)].

(** [JSON.parse] on this body as well. *)
Definition odd_refusal_parse (body : string) : parsed :=
  if body =? odd_refusal_body then Parsed odd_refusal_payload else odd_parse body.

Definition odd_refusal_host : host :=
  {| JSON_parse := odd_refusal_parse; finite_toString := sample_toString;
     net := serve [(ip_endpoint, ok ip_body); (sample_geo_url, ok odd_refusal_body)] |}.

(** * Properties *)

(** ** Rendering of integers *)

Lemma string_of_uint_spaceless d : spaceless (NilEmpty.string_of_uint d) = true.
Proof. induction d; simpl; auto. Qed.

Lemma Z_toString_spaceless z : spaceless (Z_toString z) = true.
Proof.
  unfold Z_toString. destruct (Z.to_int z) as [d | d]; simpl.
  - destruct d; try apply string_of_uint_spaceless; reflexivity.
  - destruct d; try apply string_of_uint_spaceless; reflexivity.
Qed.

Lemma Z_toString_inj a b : Z_toString a = Z_toString b -> a = b.
Proof.
  unfold Z_toString. intros H. apply DecimalZ.to_int_inj.
  assert (Hread : forall z, NilZero.int_of_string (NilZero.string_of_int (Z.to_int z))
                            = Some (Z.to_int z)).
  { intros z. apply NilZero.isi; destruct z; simpl; try discriminate;
      intros [= Hnil]; now apply Unsigned.to_uint_nonnil in Hnil. }
  pose proof (Hread a) as Ha. rewrite H, Hread in Ha. now injection Ha.
Qed.

Lemma split_at_first_space s1 s2 r1 r2 :
  spaceless s1 = true -> spaceless s2 = true ->
  s1 ++ String " " r1 = s2 ++ String " " r2 -> s1 = s2 /\ r1 = r2.
Proof.
  revert s2. induction s1 as [| c1 s1 IH]; intros [| c2 s2]; simpl.
  - now intros _ _ [= ->].
  - intros _ [Hc _]%andb_prop [= <- _]. discriminate Hc.
  - intros [Hc _]%andb_prop _ [= -> _]. discriminate Hc.
  - intros [_ H1]%andb_prop [_ H2]%andb_prop [= -> H].
    destruct (IH s2 H1 H2 H) as [-> ->]. auto.
Qed.

Section Properties.

Variable h : host.

(** ** The trace is write-only *)

Lemma oblivious_ret {A} (a : A) : oblivious (ret a).
Proof. intros t. unfold ret. simpl. now rewrite app_nil_r. Qed.

Lemma oblivious_lift {A} (r : result A) : oblivious (lift r).
Proof. intros t. unfold lift. destruct r; simpl; now rewrite app_nil_r. Qed.

Lemma oblivious_invoke cb error result : oblivious (invoke cb error result).
Proof. intros t. reflexivity. Qed.

Lemma oblivious_bind {A B} (m : M A) (f : A -> M B) :
  oblivious m -> (forall a, oblivious (f a)) -> oblivious (bind m f).
Proof.
  intros Hm Hf t. unfold bind. rewrite (Hm t).
  destruct (m []) as [[a | e | e] tm]; simpl; try reflexivity.
  rewrite (Hf a (t ++ tm)%list), (Hf a tm). simpl. now rewrite app_assoc.
Qed.

Lemma oblivious_try_catch {A} (body : M A) (handler : value -> M A) :
  oblivious body -> (forall e, oblivious (handler e)) ->
  oblivious (try_catch body handler).
Proof.
  intros Hb Hh t. unfold try_catch. rewrite (Hb t).
  destruct (body []) as [[a | e | e] tb]; simpl; try reflexivity.
  rewrite (Hh e (t ++ tb)%list), (Hh e tb). simpl. now rewrite app_assoc.
Qed.

Lemma oblivious_request_get url (k : reply -> M unit) :
  (forall r, oblivious (k r)) -> oblivious (request_get h url k).
Proof.
  intros Hk t. unfold request_get.
  rewrite (Hk (net h url) (t ++ [Request url])%list), (Hk (net h url) ([] ++ [Request url])%list).
  destruct (fst (k (net h url) [])); simpl; now rewrite <- app_assoc.
Qed.

Lemma oblivious_if {A} (b : bool) (m1 m2 : M A) :
  oblivious m1 -> oblivious m2 -> oblivious (if b then m1 else m2).
Proof. now destruct b. Qed.

Create HintDb oblivious.
#[local] Hint Resolve oblivious_ret oblivious_lift oblivious_invoke oblivious_bind
  oblivious_try_catch oblivious_request_get oblivious_if : oblivious.

Lemma fetchMyIP_oblivious k : oblivious_callback k -> oblivious (fetchMyIP h k).
Proof.
  intros Hk. unfold fetchMyIP. apply oblivious_request_get.
  intros [error | response body]; auto 10 with oblivious.
Qed.

Lemma fetchCoordsByIP_oblivious ip k :
  oblivious_callback k -> oblivious (fetchCoordsByIP h ip k).
Proof.
  intros Hk. unfold fetchCoordsByIP.
  apply oblivious_bind; [auto with oblivious|]. intros ip_text.
  apply oblivious_request_get.
  intros [error | response body]; [apply Hk|].
  apply oblivious_try_catch; [|intros; apply Hk].
  repeat (apply oblivious_bind; [auto with oblivious|]; intros ?).
  apply oblivious_if; repeat (apply oblivious_bind; [auto with oblivious|]; intros ?);
    apply Hk.
Qed.

Lemma fetchISSFlyOverTimes_oblivious coords k :
  oblivious_callback k -> oblivious (fetchISSFlyOverTimes h coords k).
Proof.
  intros Hk. unfold fetchISSFlyOverTimes.
  repeat (apply oblivious_bind; [auto with oblivious|]; intros ?).
  apply oblivious_request_get.
  intros [error | response body]; auto 10 with oblivious.
Qed.

Lemma nextISSTimesForMyLocation_oblivious k :
  oblivious_callback k -> oblivious (nextISSTimesForMyLocation h k).
Proof.
  intros Hk. unfold nextISSTimesForMyLocation.
  apply fetchMyIP_oblivious. intros e1 ip. apply oblivious_if; [apply Hk|].
  apply fetchCoordsByIP_oblivious. intros e2 coords. apply oblivious_if; [apply Hk|].
  apply fetchISSFlyOverTimes_oblivious. intros e3 flyTimes.
  apply oblivious_if; apply Hk.
Qed.

(** ** How a lookup uses its callback *)

Lemma fetchMyIP_delivers :
  exists d, (forall err, d <> FailGuarded err) /\
    forall k t, fetchMyIP h k t = request_get h ip_endpoint (fun _ => deliver d k) t.
Proof.
  unfold fetchMyIP, ip_endpoint, request_get.
  destruct (net h "https://api.ipify.org?format=json") as [error | response body].
  - exists (Fail error). split; [discriminate | reflexivity].
  - destruct (negb (statusCode response =? 200)%Z).
    + eexists (Fail _). split; [discriminate | reflexivity].
    + unfold try_catch, bind, lift.
      destruct (JSON_parse_result h body) as [data | e].
      * destruct (get data "ip") as [ip | e].
        -- exists (Succeed ip). split; [discriminate | reflexivity].
        -- exists (Fail e). split; [discriminate | reflexivity].
      * exists (Fail e). split; [discriminate | reflexivity].
Qed.

Lemma fetchCoordsByIP_delivers ip :
  (exists err, ToString h ip = Throw err /\
     forall k t, fetchCoordsByIP h ip k t = (Threw err, t))
  \/ (exists ip_text d, ToString h ip = Ok ip_text /\
     forall k t, fetchCoordsByIP h ip k t
                 = request_get h (geo_endpoint ip_text) (fun _ => deliver d k) t).
Proof.
  unfold fetchCoordsByIP, geo_endpoint.
  destruct (ToString h ip) as [ip_text | err]; [right | left; eauto].
  exists ip_text. unfold bind at 1, lift at 1. unfold request_get.
  destruct (net h ("https://ipwho.is/" ++ ip_text)) as [error | response body].
  - exists (Fail error). split; reflexivity.
  - unfold try_catch, bind, lift.
    destruct (JSON_parse_result h body) as [data | e];
      [|exists (Fail e); split; reflexivity].
    destruct (get data "success") as [success | e];
      [|exists (Fail e); split; reflexivity].
    destruct (negb (truthy success)).
    + destruct (ToString h success) as [s1 | e];
        [|exists (Fail e); split; reflexivity].
      destruct (result_bind (get data "message") (ToString h)) as [s2 | e];
        [|exists (Fail e); split; reflexivity].
      destruct (result_bind (get data "ip") (ToString h)) as [s3 | e];
        [|exists (Fail e); split; reflexivity].
      eexists (FailGuarded _). split; reflexivity.
    + destruct (get data "latitude") as [latitude | e];
        [|exists (Fail e); split; reflexivity].
      destruct (get data "longitude") as [longitude | e];
        [|exists (Fail e); split; reflexivity].
      eexists (Succeed _). split; reflexivity.
Qed.

Lemma fetchISSFlyOverTimes_delivers coords :
  (exists err : js_error,
      (result_bind (get coords "latitude") (ToString h) = Throw err \/
       result_bind (get coords "longitude") (ToString h) = Throw err) /\
      forall k t, fetchISSFlyOverTimes h coords k t = (Threw err, t))
  \/ (exists lat_text lon_text d,
        result_bind (get coords "latitude") (ToString h) = Ok lat_text /\
        result_bind (get coords "longitude") (ToString h) = Ok lon_text /\
        (forall err, d <> FailGuarded err) /\
        forall k t, fetchISSFlyOverTimes h coords k t
                    = request_get h (iss_endpoint lat_text lon_text)
                                  (fun _ => deliver d k) t).
Proof.
  unfold fetchISSFlyOverTimes, iss_endpoint.
  destruct (result_bind (get coords "latitude") (ToString h)) as [lat_text | err];
    [|left; exists err; split; [left|]; reflexivity].
  destruct (result_bind (get coords "longitude") (ToString h)) as [lon_text | err];
    [|left; exists err; split; [right|]; reflexivity].
  right. exists lat_text, lon_text.
  unfold bind at 1 2, lift at 1 2. unfold request_get.
  destruct (net h _) as [error | response body].
  - exists (Fail error). repeat split; try discriminate.
  - destruct (negb (statusCode response =? 200)%Z).
    + eexists (Fail _). repeat split; try discriminate.
    + unfold try_catch, bind, lift.
      destruct (JSON_parse_result h body) as [data | e].
      * destruct (get data "response") as [flyTimes | e].
        -- exists (Succeed flyTimes). repeat split; try discriminate.
        -- exists (Fail e). repeat split; try discriminate.
      * exists (Fail e). repeat split; try discriminate.
Qed.

(** ** Outcomes of the lookups *)

Lemma outcome_of_delivery (lookup : callback_t -> M unit) url d :
  (forall k t, lookup k t = request_get h url (fun _ => deliver d k) t) ->
  outcome lookup = [delivered d].
Proof.
  intros H. unfold outcome, run. rewrite H. now destruct d.
Qed.

Lemma outcome_of_throw (lookup : callback_t -> M unit) (err : js_error) :
  (forall k t, lookup k t = (Threw err, t)) -> outcome lookup = [].
Proof.
  intros H. unfold outcome, run. now rewrite H.
Qed.

Lemma delivered_fails d e :
  delivered d = Callback e VNull -> truthy e = true ->
  exists err, e = VError err /\ (d = Fail err \/ d = FailGuarded err).
Proof.
  destruct d as [err | err | r]; simpl; intros [= <-]; eauto; discriminate.
Qed.

Lemma delivered_succeeds d r : delivered d = Callback VNull r -> d = Succeed r.
Proof.
  destruct d as [err | err | r']; simpl; intros [= <-]; reflexivity || discriminate.
Qed.

Lemma fetchMyIP_fails e :
  fails (fetchMyIP h) e ->
  exists err : js_error, e = err /\
    forall k t, fetchMyIP h k t
                = request_get h ip_endpoint (fun _ => deliver (Fail err) k) t.
Proof.
  intros [He Ht]. destruct fetchMyIP_delivers as (d & Hg & H).
  rewrite (@outcome_of_delivery _ _ _ H) in He. injection He as He.
  destruct (@delivered_fails _ _ He Ht) as (err & -> & [-> | ->]); eauto.
  now elim (Hg err).
Qed.

Lemma fetchMyIP_succeeds ip :
  succeeds (fetchMyIP h) ip ->
  forall k t, fetchMyIP h k t
              = request_get h ip_endpoint (fun _ => deliver (Succeed ip) k) t.
Proof.
  intros Hs. destruct fetchMyIP_delivers as (d & _ & H).
  unfold succeeds in Hs. rewrite (@outcome_of_delivery _ _ _ H) in Hs.
  injection Hs as Hs. apply delivered_succeeds in Hs. now subst d.
Qed.

Lemma fetchCoordsByIP_fails ip e :
  fails (fetchCoordsByIP h ip) e ->
  exists (err : js_error) ip_text d,
    e = err /\ ToString h ip = Ok ip_text /\ (d = Fail err \/ d = FailGuarded err) /\
    forall k t, fetchCoordsByIP h ip k t
                = request_get h (geo_endpoint ip_text) (fun _ => deliver d k) t.
Proof.
  intros [He Ht].
  destruct (fetchCoordsByIP_delivers ip)
    as [(err & _ & H) | (ip_text & d & Hts & H)].
  { now rewrite (@outcome_of_throw _ _ H) in He. }
  rewrite (@outcome_of_delivery _ _ _ H) in He. injection He as He.
  destruct (@delivered_fails _ _ He Ht) as (err & -> & Hd).
  exists err, ip_text, d. auto.
Qed.

Lemma fetchCoordsByIP_succeeds ip coords :
  succeeds (fetchCoordsByIP h ip) coords ->
  exists ip_text,
    ToString h ip = Ok ip_text /\
    forall k t, fetchCoordsByIP h ip k t
                = request_get h (geo_endpoint ip_text)
                              (fun _ => deliver (Succeed coords) k) t.
Proof.
  intros Hs. unfold succeeds in Hs.
  destruct (fetchCoordsByIP_delivers ip)
    as [(err & _ & H) | (ip_text & d & Hts & H)].
  { now rewrite (@outcome_of_throw _ _ H) in Hs. }
  rewrite (@outcome_of_delivery _ _ _ H) in Hs. injection Hs as Hs.
  apply delivered_succeeds in Hs. subst d. eauto.
Qed.

Lemma fetchISSFlyOverTimes_fails coords e :
  fails (fetchISSFlyOverTimes h coords) e ->
  exists (err : js_error) lat_text lon_text,
    e = err /\
    result_bind (get coords "latitude") (ToString h) = Ok lat_text /\
    result_bind (get coords "longitude") (ToString h) = Ok lon_text /\
    forall k t, fetchISSFlyOverTimes h coords k t
                = request_get h (iss_endpoint lat_text lon_text)
                              (fun _ => deliver (Fail err) k) t.
Proof.
  intros [He Ht].
  destruct (fetchISSFlyOverTimes_delivers coords)
    as [(err & _ & H) | (lat_text & lon_text & d & Hlat & Hlon & Hg & H)].
  { now rewrite (@outcome_of_throw _ _ H) in He. }
  rewrite (@outcome_of_delivery _ _ _ H) in He. injection He as He.
  destruct (@delivered_fails _ _ He Ht) as (err & -> & [-> | ->]).
  - exists err, lat_text, lon_text. auto.
  - now elim (Hg err).
Qed.

Lemma fetchISSFlyOverTimes_succeeds coords flyTimes :
  succeeds (fetchISSFlyOverTimes h coords) flyTimes ->
  exists lat_text lon_text,
    result_bind (get coords "latitude") (ToString h) = Ok lat_text /\
    result_bind (get coords "longitude") (ToString h) = Ok lon_text /\
    forall k t, fetchISSFlyOverTimes h coords k t
                = request_get h (iss_endpoint lat_text lon_text)
                              (fun _ => deliver (Succeed flyTimes) k) t.
Proof.
  intros Hs. unfold succeeds in Hs.
  destruct (fetchISSFlyOverTimes_delivers coords)
    as [(err & _ & H) | (lat_text & lon_text & d & Hlat & Hlon & _ & H)].
  { now rewrite (@outcome_of_throw _ _ H) in Hs. }
  rewrite (@outcome_of_delivery _ _ _ H) in Hs. injection Hs as Hs.
  apply delivered_succeeds in Hs. subst d. eauto.
Qed.

(** ** The orchestrator *)

Ltac run_step :=
  unfold request_get, deliver, try_catch; cbn [truthy app fst snd].

Ltac one_call :=
  split; [reflexivity|]; do 2 eexists; split; [reflexivity|];
  first [left; split; reflexivity | right; reflexivity].

(** What holds of the short circuit on every run.  When a lookup fails, the
    trace holds the requests of the lookups up to the failing one and no
    other, and the first thing the completion callback receives is that
    lookup's error, unchanged, with a null result.  Nothing follows it when
    the callback returns; whatever follows (after the callback threw) is no
    network request. *)
Theorem failing_step_short_circuits (cb : handler_t) :
  (forall e, fails (fetchMyIP h) e ->
     observed h cb = [Request ip_endpoint; Callback e VNull])
  /\ (forall ip e, succeeds (fetchMyIP h) ip -> fails (fetchCoordsByIP h ip) e ->
        exists ip_text extra,
          ToString h ip = Ok ip_text /\
          observed h cb = Request ip_endpoint :: Request (geo_endpoint ip_text)
                          :: Callback e VNull :: extra /\
          forallb is_callback extra = true /\
          (cb e VNull = None -> extra = []))
  /\ (forall ip coords e,
        succeeds (fetchMyIP h) ip -> succeeds (fetchCoordsByIP h ip) coords ->
        fails (fetchISSFlyOverTimes h coords) e ->
        exists ip_text lat_text lon_text,
          ToString h ip = Ok ip_text /\
          result_bind (get coords "latitude") (ToString h) = Ok lat_text /\
          result_bind (get coords "longitude") (ToString h) = Ok lon_text /\
          observed h cb = [Request ip_endpoint; Request (geo_endpoint ip_text);
                         Request (iss_endpoint lat_text lon_text);
                         Callback e VNull]).
Proof.
  unfold observed, run, nextISSTimesForMyLocation.
  split; [|split].
  - intros e Hf1. destruct (fetchMyIP_fails _ Hf1) as (err & -> & H1).
    rewrite H1. run_step. unfold invoke. now destruct (cb err VNull).
  - intros ip e Hs1 Hf2. pose proof (fetchMyIP_succeeds _ Hs1) as H1.
    destruct (fetchCoordsByIP_fails _ _ Hf2)
      as (err & ip_text & d2 & -> & Hts & Hd2 & H2).
    exists ip_text. rewrite H1.
    destruct Hd2 as [-> | ->]; run_step; rewrite H2; run_step; unfold invoke.
    + exists []. now destruct (cb err VNull).
    + destruct (cb err VNull) as [x |]; [|now exists []].
      destruct (truthy x).
      * exists [Callback x VNull]. now destruct (cb x VNull).
      * exists []. repeat split; auto.
  - intros ip coords e Hs1 Hs2 Hf3. pose proof (fetchMyIP_succeeds _ Hs1) as H1.
    destruct (fetchCoordsByIP_succeeds _ _ Hs2) as (ip_text & Hts & H2).
    destruct (fetchISSFlyOverTimes_fails _ _ Hf3)
      as (err & lat_text & lon_text & -> & Hlat & Hlon & H3).
    exists ip_text, lat_text, lon_text. repeat (split; [assumption|]).
    rewrite H1. run_step. rewrite H2. run_step. rewrite H3. run_step.
    unfold invoke. now destruct (cb err VNull).
Qed.

(** C2.  When all three lookups succeed, the completion callback receives
    a null error and the very value the Overpass Lookup produced.  Nothing
    follows it when the callback returns. *)
Theorem success_passes_overpass_list_through
    (cb : handler_t) (ip coords flyTimes : value) :
  succeeds (fetchMyIP h) ip ->
  succeeds (fetchCoordsByIP h ip) coords ->
  succeeds (fetchISSFlyOverTimes h coords) flyTimes ->
  exists ip_text lat_text lon_text extra,
    ToString h ip = Ok ip_text /\
    result_bind (get coords "latitude") (ToString h) = Ok lat_text /\
    result_bind (get coords "longitude") (ToString h) = Ok lon_text /\
    observed h cb = Request ip_endpoint :: Request (geo_endpoint ip_text)
                    :: Request (iss_endpoint lat_text lon_text)
                    :: Callback VNull flyTimes :: extra /\
    forallb is_callback extra = true /\
    (cb VNull flyTimes = None -> extra = []).
Proof.
  intros Hs1 Hs2 Hs3. pose proof (fetchMyIP_succeeds _ Hs1) as H1.
  destruct (fetchCoordsByIP_succeeds _ _ Hs2) as (ip_text & Hts & H2).
  destruct (fetchISSFlyOverTimes_succeeds _ _ Hs3)
    as (lat_text & lon_text & Hlat & Hlon & H3).
  exists ip_text, lat_text, lon_text.
  unfold observed, run, nextISSTimesForMyLocation.
  rewrite H1. run_step. rewrite H2. run_step. rewrite H3. run_step.
  unfold invoke.
  destruct (cb VNull flyTimes) as [x |]; [|now exists []].
  destruct (truthy x).
  - exists [Callback x VNull]. now destruct (cb x VNull).
  - exists [Callback VNull VNull]. now destruct (cb VNull VNull).
Qed.

(** X8.  With a completion callback that returns, every run ends normally
    after exactly one invocation of it: with a truthy error and a null
    result, or with a null error. *)
Lemma callback_invoked_once_when_it_returns (cb : handler_t) :
  (forall e r, cb e r = None) ->
  fst (run (nextISSTimesForMyLocation h (invoke cb))) = Returned tt /\
  exists e r,
    filter is_callback (observed h cb) = [Callback e r] /\
    (truthy e = true /\ r = VNull \/ e = VNull).
Proof.
  intros Hcb. unfold observed, run, nextISSTimesForMyLocation.
  destruct fetchMyIP_delivers as (d1 & Hg1 & H1). rewrite H1.
  destruct d1 as [err | err | ip]; [| now elim (Hg1 err) |].
  { run_step. unfold invoke. rewrite Hcb. cbn. one_call. }
  destruct (fetchCoordsByIP_delivers ip)
    as [(err & _ & H2) | (ip_text & d2 & _ & H2)].
  { run_step. rewrite H2. run_step. unfold invoke. rewrite Hcb. cbn. one_call. }
  destruct d2 as [err | err | coords].
  1, 2: run_step; rewrite H2; run_step; unfold invoke; rewrite Hcb; cbn; one_call.
  destruct (fetchISSFlyOverTimes_delivers coords)
    as [(err & _ & H3) | (lat_text & lon_text & d3 & _ & _ & Hg3 & H3)].
  { run_step. rewrite H2. run_step. rewrite H3. run_step.
    unfold invoke. rewrite Hcb. cbn. one_call. }
  destruct d3 as [err | err | flyTimes]; [| now elim (Hg3 err) |].
  all: run_step; rewrite H2; run_step; rewrite H3; run_step;
    unfold invoke; rewrite Hcb; cbn; one_call.
Qed.

(** X9.  Whether it returns or throws, the completion callback is never
    handed an error together with a result. *)
Lemma callback_never_gets_both (cb : handler_t) :
  forallb one_sided (observed h cb) = true.
Proof.
  unfold observed, run, nextISSTimesForMyLocation.
  destruct fetchMyIP_delivers as (d1 & Hg1 & H1). rewrite H1.
  destruct d1 as [err | err | ip]; [| now elim (Hg1 err) |].
  { run_step. unfold invoke. now destruct (cb err VNull). }
  destruct (fetchCoordsByIP_delivers ip)
    as [(err & _ & H2) | (ip_text & d2 & _ & H2)].
  { run_step. rewrite H2. run_step. unfold invoke. now destruct (cb err VNull). }
  destruct d2 as [err | err | coords].
  - run_step. rewrite H2. run_step. unfold invoke. now destruct (cb err VNull).
  - run_step. rewrite H2. run_step. unfold invoke.
    destruct (cb err VNull) as [x |]; [|reflexivity].
    destruct (truthy x); [|reflexivity].
    destruct (cb x VNull); cbn; now rewrite orb_true_r.
  - destruct (fetchISSFlyOverTimes_delivers coords)
      as [(err & _ & H3) | (lat_text & lon_text & d3 & _ & _ & Hg3 & H3)].
    { run_step. rewrite H2. run_step. rewrite H3. run_step.
      unfold invoke. now destruct (cb err VNull). }
    destruct d3 as [err | err | flyTimes]; [| now elim (Hg3 err) |];
      run_step; rewrite H2; run_step; rewrite H3; run_step; unfold invoke.
    + now destruct (cb err VNull).
    + destruct (cb VNull flyTimes) as [x |]; [|reflexivity].
      destruct (truthy x); [destruct (cb x VNull) | destruct (cb VNull VNull)];
        cbn; now rewrite ?orb_true_r.
Qed.

(** C8.  A run does not depend on what happened before it: started after
    any history, the orchestrator ends the same way and appends the same
    events.  In particular a second run, started where the first one
    stopped, repeats the first one's events. *)
Theorem repeated_runs_agree (cb : handler_t) (history : trace) :
  let first := nextISSTimesForMyLocation h (invoke cb) history in
  let second := nextISSTimesForMyLocation h (invoke cb) (snd first) in
  snd first = (history ++ observed h cb)%list /\
  snd second = (snd first ++ observed h cb)%list /\
  fst second = fst first.
Proof.
  assert (Ho : oblivious (nextISSTimesForMyLocation h (invoke cb))).
  { apply nextISSTimesForMyLocation_oblivious.
    intros e r. apply oblivious_invoke. }
  cbv zeta. rewrite (Ho history). cbn [fst snd]. rewrite (Ho (history ++ _)%list).
  cbn [fst snd]. unfold observed, run. auto.
Qed.

(** ** The lookups, one reply at a time *)

Lemma falsy_renders v : truthy v = false -> exists s, ToString h v = Ok s.
Proof.
  destruct v as [| | [] | n | s | | |]; simpl; try discriminate; eauto.
Qed.

Lemma truthy_property_of_object data p v :
  get data p = Ok v -> truthy v = true -> p <> "message" ->
  exists properties, data = VObj properties /\ own_property properties p = Some v.
Proof.
  destruct data; simpl; try discriminate.
  - intros [= <-]; discriminate.
  - intros [= <-]; discriminate.
  - intros [= <-]; discriminate.
  - intros [= <-]; discriminate.
  - destruct (own_property properties p) eqn:Hp; intros [= <-]; eauto; discriminate.
  - destruct (String.eqb_spec p "message"); intros [= <-]; [contradiction|discriminate].
Qed.

Ltac run_lookup Hnet :=
  unfold ip_endpoint, geo_endpoint, iss_endpoint in Hnet;
  unfold outcome, run, request_get; cbn [app]; rewrite Hnet.

(** C5.  A reply with a status other than 200 makes the IP Lookup and the
    Overpass Lookup call back with a null result and an error whose
    message carries the status code, in decimal, and the raw body; both
    can be read back from the message. *)
Theorem non_200_yields_status_error :
  (forall resp body,
     net h ip_endpoint = Replied resp body -> statusCode resp <> 200%Z ->
     outcome (fetchMyIP h)
     = [Callback (Error ("Status Code " ++ Z_toString (statusCode resp)
                         ++ " when fetching IP. Response: " ++ body)) VNull])
  /\ (forall coords lat_text lon_text resp body,
        result_bind (get coords "latitude") (ToString h) = Ok lat_text ->
        result_bind (get coords "longitude") (ToString h) = Ok lon_text ->
        net h (iss_endpoint lat_text lon_text) = Replied resp body ->
        statusCode resp <> 200%Z ->
        outcome (fetchISSFlyOverTimes h coords)
        = [Callback (Error ("Status Code " ++ Z_toString (statusCode resp)
                            ++ " when fetching IP. Response: " ++ body)) VNull])
  /\ (forall code1 body1 code2 body2,
        "Status Code " ++ Z_toString code1 ++ " when fetching IP. Response: " ++ body1
        = "Status Code " ++ Z_toString code2 ++ " when fetching IP. Response: " ++ body2 ->
        code1 = code2 /\ body1 = body2).
Proof.
  split; [|split].
  - intros resp body Hnet Hcode. unfold fetchMyIP. run_lookup Hnet.
    apply Z.eqb_neq in Hcode. now rewrite Hcode.
  - intros coords lat_text lon_text resp body Hlat Hlon Hnet Hcode.
    unfold fetchISSFlyOverTimes, bind at 1 2, lift at 1 2.
    unfold outcome, run. rewrite Hlat, Hlon. unfold request_get. cbn [app].
    unfold iss_endpoint in Hnet. rewrite Hnet.
    apply Z.eqb_neq in Hcode. now rewrite Hcode.
  - intros code1 body1 code2 body2 H. cbn [append] in H.
    injection H as H.
    apply split_at_first_space in H; try apply Z_toString_spaceless.
    destruct H as [Hcode H]. apply Z_toString_inj in Hcode.
    now injection H.
Qed.

(** What the code does with a missing property, on every host.  A 200 reply
    whose body parses to an object without the expected property counts as
    a success: the IP Lookup and the Overpass Lookup call back with a null
    error and [undefined]. *)
Theorem missing_field_yields_undefined :
  (forall resp body properties,
     net h ip_endpoint = Replied resp body -> statusCode resp = 200%Z ->
     JSON_parse h body = Parsed (VObj properties) ->
     own_property properties "ip" = None ->
     outcome (fetchMyIP h) = [Callback VNull VUndefined])
  /\ (forall coords lat_text lon_text resp body properties,
        result_bind (get coords "latitude") (ToString h) = Ok lat_text ->
        result_bind (get coords "longitude") (ToString h) = Ok lon_text ->
        net h (iss_endpoint lat_text lon_text) = Replied resp body ->
        statusCode resp = 200%Z ->
        JSON_parse h body = Parsed (VObj properties) ->
        own_property properties "response" = None ->
        outcome (fetchISSFlyOverTimes h coords) = [Callback VNull VUndefined]).
Proof.
  split.
  - intros resp body properties Hnet Hcode Hparse Hip.
    unfold fetchMyIP. run_lookup Hnet. rewrite Hcode. cbn [Z.eqb Pos.eqb negb].
    unfold try_catch, bind, lift, JSON_parse_result. rewrite Hparse.
    cbn [get]. now rewrite Hip.
  - intros coords lat_text lon_text resp body properties
      Hlat Hlon Hnet Hcode Hparse Hresp.
    unfold fetchISSFlyOverTimes, bind at 1 2, lift at 1 2.
    unfold outcome, run. rewrite Hlat, Hlon. unfold request_get. cbn [app].
    unfold iss_endpoint in Hnet. rewrite Hnet, Hcode. cbn [Z.eqb Pos.eqb negb].
    unfold try_catch, bind, lift, JSON_parse_result. rewrite Hparse.
    cbn [get]. now rewrite Hresp.
Qed.

(** Opening [fetchCoordsByIP] on a reply whose body parses: the proofs
    below name their hypotheses [Hts] (the address renders), [Hnet] (the
    reply) and [Hparse] (the parsed payload). *)
Ltac open_geolocation :=
  match goal with
  | Hts : ToString h _ = Ok _, Hnet : net h _ = Replied _ _,
    Hparse : JSON_parse h _ = Parsed _ |- _ =>
      unfold geo_endpoint in Hnet;
      unfold outcome, run, fetchCoordsByIP; unfold bind at 1, lift at 1;
      rewrite Hts; unfold request_get; cbn [app]; rewrite Hnet;
      unfold try_catch, bind, lift, JSON_parse_result, invoke, quiet;
      rewrite Hparse
  end.

Ltac open_geolocation_in Hs :=
  match goal with
  | Hts : ToString h _ = Ok _, Hnet : net h _ = Replied _ _,
    Hparse : JSON_parse h _ = Parsed _ |- _ =>
      unfold geo_endpoint in Hnet;
      unfold outcome, run, fetchCoordsByIP in Hs;
      unfold bind at 1, lift at 1 in Hs;
      rewrite Hts in Hs; unfold request_get in Hs; cbn [app] in Hs;
      rewrite Hnet in Hs;
      unfold try_catch, bind, lift, JSON_parse_result, invoke, quiet in Hs;
      rewrite Hparse in Hs
  end.

(** C3, as the code has it.  A payload with [success: false] makes the
    Geolocation Lookup call back with a null result and an error.  The
    error is the [Error] whose message is built around the payload's
    [message] and [ip], each converted to a string: the text of a string
    [message] is there verbatim, between a sentence about the success flag
    and one about the [ip].  When [message] or [ip] cannot be converted,
    the error is the TypeError that the conversion threw. *)
Theorem unsuccessful_payload_reports_server_message
    (ip : value) (ip_text : string) resp body data :
  ToString h ip = Ok ip_text ->
  net h (geo_endpoint ip_text) = Replied resp body ->
  JSON_parse h body = Parsed data ->
  get data "success" = Ok (VBool false) ->
  outcome (fetchCoordsByIP h ip)
  = [Callback
       match result_bind (get data "message") (ToString h) with
       | Throw err => VError err
       | Ok shown_message =>
           match result_bind (get data "ip") (ToString h) with
           | Throw err => VError err
           | Ok shown_ip =>
               VError (Error ("Success status was false. Server message says: "
                              ++ shown_message ++ " when fetching for IP "
                              ++ shown_ip))
           end
       end
       VNull]
  /\ (forall msg,
        get data "message" = Ok (VStr msg) ->
        result_bind (get data "message") (ToString h) = Ok msg)
  /\ (forall msg shown_ip,
        get data "message" = Ok (VStr msg) ->
        result_bind (get data "ip") (ToString h) = Ok shown_ip ->
        outcome (fetchCoordsByIP h ip)
        = [Callback (Error ("Success status was false. Server message says: "
                            ++ msg ++ " when fetching for IP " ++ shown_ip))
                    VNull]).
Proof.
  intros Hts Hnet Hparse Hsuccess.
  assert (Hall : outcome (fetchCoordsByIP h ip)
                 = [Callback
                      match result_bind (get data "message") (ToString h) with
                      | Throw err => VError err
                      | Ok shown_message =>
                          match result_bind (get data "ip") (ToString h) with
                          | Throw err => VError err
                          | Ok shown_ip =>
                              VError (Error ("Success status was false. "
                                             ++ "Server message says: "
                                             ++ shown_message
                                             ++ " when fetching for IP "
                                             ++ shown_ip))
                          end
                      end
                      VNull]).
  { open_geolocation. rewrite Hsuccess. cbn [truthy negb ToString].
    destruct (result_bind (get data "message") (ToString h)) as [m | e];
      [|reflexivity].
    now destruct (result_bind (get data "ip") (ToString h)). }
  split; [exact Hall|]. split.
  - intros msg Hmsg. now rewrite Hmsg.
  - intros msg shown_ip Hmsg Hip. rewrite Hall, Hmsg. cbn [result_bind ToString].
    now rewrite Hip.
Qed.

(** C9.  Whatever the status code, a payload that parses yields
    coordinates only when it is an object whose [success] property is
    present and truthy.  Any falsy [success] ([false], [0], the empty
    string, [null], or no such property at all) makes the lookup call back
    with an error object and a null result; the error is the [Error]
    built from the payload whenever its [message] and [ip] can be
    rendered as text. *)
Theorem falsy_success_is_an_error
    (ip : value) (ip_text : string) resp body data :
  ToString h ip = Ok ip_text ->
  net h (geo_endpoint ip_text) = Replied resp body ->
  JSON_parse h body = Parsed data ->
  (forall coords, succeeds (fetchCoordsByIP h ip) coords ->
     exists properties success,
       data = VObj properties /\
       own_property properties "success" = Some success /\
       truthy success = true)
  /\ (forall success, get data "success" = Ok success -> truthy success = false ->
        exists (err : js_error) shown_success,
          outcome (fetchCoordsByIP h ip) = [Callback err VNull] /\
          ToString h success = Ok shown_success /\
          forall msg shown_ip,
            result_bind (get data "message") (ToString h) = Ok msg ->
            result_bind (get data "ip") (ToString h) = Ok shown_ip ->
            err = Error ("Success status was " ++ shown_success
                         ++ ". Server message says: " ++ msg
                         ++ " when fetching for IP " ++ shown_ip)).
Proof.
  intros Hts Hnet Hparse.
  split.
  - intros coords Hs. unfold succeeds in Hs. open_geolocation_in Hs.
    destruct (get data "success") as [success | e] eqn:Hsuccess;
      [|discriminate Hs].
    destruct (truthy success) eqn:Htruthy.
    + destruct (@truthy_property_of_object _ _ _ Hsuccess Htruthy)
        as (properties & -> & Hp); [discriminate|]. eauto.
    + cbn [negb] in Hs.
      destruct (ToString h success); [|discriminate Hs].
      destruct (result_bind (get data "message") (ToString h)); [|discriminate Hs].
      destruct (result_bind (get data "ip") (ToString h)); discriminate Hs.
  - intros success Hsuccess Hfalsy.
    destruct (falsy_renders _ Hfalsy) as (shown_success & Hshown).
    open_geolocation.
    rewrite Hsuccess, Hfalsy, Hshown. cbn [negb].
    destruct (result_bind (get data "message") (ToString h)) as [msg | e].
    + destruct (result_bind (get data "ip") (ToString h)) as [shown_ip | e].
      * eexists _, shown_success. split; [reflexivity|]. split; [reflexivity|].
        now intros ? ? [= <-] [= <-].
      * exists e, shown_success. split; [reflexivity|]. split; [reflexivity|].
        discriminate.
    + exists e, shown_success. split; [reflexivity|]. split; [reflexivity|].
      discriminate.
Qed.

(** Once the first two lookups have succeeded, the Overpass Lookup is
    invoked on the coordinates the Geolocation Lookup produced. *)
Lemma overpass_requested (cb : handler_t) ip coords lat_text lon_text :
  succeeds (fetchMyIP h) ip -> succeeds (fetchCoordsByIP h ip) coords ->
  result_bind (get coords "latitude") (ToString h) = Ok lat_text ->
  result_bind (get coords "longitude") (ToString h) = Ok lon_text ->
  exists ip_text rest,
    observed h cb = Request ip_endpoint :: Request (geo_endpoint ip_text)
                    :: Request (iss_endpoint lat_text lon_text) :: rest.
Proof.
  intros Hs1 Hs2 Hlat Hlon. pose proof (fetchMyIP_succeeds _ Hs1) as H1.
  destruct (fetchCoordsByIP_succeeds _ _ Hs2) as (ip_text & Hts & H2).
  exists ip_text.
  destruct (fetchISSFlyOverTimes_delivers coords)
    as [(err & [He | He] & _) | (lat' & lon' & d3 & Hlat' & Hlon' & _ & H3)];
    try congruence.
  assert (lat' = lat_text) as -> by congruence.
  assert (lon' = lon_text) as -> by congruence.
  unfold observed, run, nextISSTimesForMyLocation.
  rewrite H1. run_step. rewrite H2. run_step. rewrite H3. run_step.
  unfold invoke.
  destruct d3 as [err | err | flyTimes].
  - destruct (cb err VNull); cbn; eauto.
  - destruct (cb err VNull) as [x |]; cbn; eauto.
    destruct (truthy x); [destruct (cb x VNull) | destruct (cb VNull VNull)];
      cbn; eauto.
  - destruct (cb VNull flyTimes) as [x |]; cbn; eauto.
    destruct (truthy x); [destruct (cb x VNull) | destruct (cb VNull VNull)];
      cbn; eauto.
Qed.

(** C10.  A payload with a truthy [success] is an object, and the
    Geolocation Lookup succeeds with the record made of whatever its
    [latitude] and [longitude] evaluate to: [undefined] for a property that
    is not there.  Nothing is checked, and the orchestrator goes on to
    the Overpass Lookup with that record. *)
Theorem truthy_success_returns_unvalidated_coordinates
    (ip : value) (ip_text : string) resp body data success :
  ToString h ip = Ok ip_text ->
  net h (geo_endpoint ip_text) = Replied resp body ->
  JSON_parse h body = Parsed data ->
  get data "success" = Ok success -> truthy success = true ->
  exists properties,
    data = VObj properties /\
    let coordinates := VObj [("latitude", field properties "latitude");
                             ("longitude", field properties "longitude")] in
    succeeds (fetchCoordsByIP h ip) coordinates /\
    (own_property properties "latitude" = None ->
     field properties "latitude" = VUndefined) /\
    (own_property properties "longitude" = None ->
     field properties "longitude" = VUndefined) /\
    forall cb lat_text lon_text,
      succeeds (fetchMyIP h) ip ->
      ToString h (field properties "latitude") = Ok lat_text ->
      ToString h (field properties "longitude") = Ok lon_text ->
      In (Request (iss_endpoint lat_text lon_text)) (observed h cb).
Proof.
  intros Hts Hnet Hparse Hsuccess Htruthy.
  destruct (@truthy_property_of_object _ _ _ Hsuccess Htruthy)
    as (properties & -> & Hp); [discriminate|].
  exists properties. split; [reflexivity|]. cbv zeta.
  assert (Hs : succeeds (fetchCoordsByIP h ip)
                 (VObj [("latitude", field properties "latitude");
                        ("longitude", field properties "longitude")])).
  { unfold succeeds. open_geolocation.
    rewrite Hsuccess, Htruthy. cbn [negb get]. unfold field.
    now destruct (own_property properties "latitude"),
                 (own_property properties "longitude"). }
  split; [exact Hs|].
  split; [now unfold field; intros ->|].
  split; [now unfold field; intros ->|].
  intros cb lat_text lon_text Hs1 Hlat Hlon.
  destruct (@overpass_requested cb _ _ lat_text lon_text Hs1 Hs)
    as (ip_text' & rest & ->); [exact Hlat | exact Hlon |].
  simpl. auto.
Qed.

(** ** Every path of the lookups *)

Ltac open_ip Hnet :=
  unfold ip_endpoint in Hnet;
  unfold lookup_trace, run, fetchMyIP, request_get; cbn [app]; rewrite Hnet.

Ltac open_geo Hts Hnet :=
  unfold geo_endpoint in Hnet;
  unfold lookup_trace, run, fetchCoordsByIP; unfold bind at 1, lift at 1;
  rewrite Hts; unfold request_get; cbn [app]; rewrite Hnet.

Ltac open_iss Hlat Hlon Hnet :=
  unfold iss_endpoint in Hnet;
  unfold lookup_trace, run, fetchISSFlyOverTimes; unfold bind at 1 2, lift at 1 2;
  rewrite Hlat, Hlon; unfold request_get; cbn [app]; rewrite Hnet.

Ltac call_once cb :=
  unfold invoke;
  match goal with
  | |- context [cb ?e ?r] => destruct (cb e r); reflexivity
  end.

(** X1.  When the transport fails, each lookup hands the transport's error
    object to its callback as it got it, with a null result, after its one
    request; the callback is called once even if it throws, since this call
    is outside the [try]. *)
Theorem transport_error_is_passed_on (cb : handler_t) (err : js_error) :
  (net h ip_endpoint = TransportError err ->
   lookup_trace (fetchMyIP h) cb = [Request ip_endpoint; Callback err VNull])
  /\ (forall ip ip_text,
        ToString h ip = Ok ip_text ->
        net h (geo_endpoint ip_text) = TransportError err ->
        lookup_trace (fetchCoordsByIP h ip) cb
        = [Request (geo_endpoint ip_text); Callback err VNull])
  /\ (forall coords lat_text lon_text,
        result_bind (get coords "latitude") (ToString h) = Ok lat_text ->
        result_bind (get coords "longitude") (ToString h) = Ok lon_text ->
        net h (iss_endpoint lat_text lon_text) = TransportError err ->
        lookup_trace (fetchISSFlyOverTimes h coords) cb
        = [Request (iss_endpoint lat_text lon_text); Callback err VNull]).
Proof.
  split; [|split].
  - intros Hnet. open_ip Hnet. call_once cb.
  - intros ip ip_text Hts Hnet. open_geo Hts Hnet. call_once cb.
  - intros coords lat_text lon_text Hlat Hlon Hnet. open_iss Hlat Hlon Hnet.
    call_once cb.
Qed.

(** X2.  A body that [JSON.parse] rejects makes each lookup hand the
    SyntaxError that [JSON.parse] threw to its callback, with a null
    result: for the IP and Overpass Lookups when the status is 200, for the
    Geolocation Lookup whatever the status.  The callback is called once
    even if it throws. *)
Theorem unparsable_body_yields_syntax_error
    (cb : handler_t) (resp : response) (body msg : string) :
  JSON_parse h body = Unparsable msg ->
  (net h ip_endpoint = Replied resp body -> statusCode resp = 200%Z ->
   lookup_trace (fetchMyIP h) cb
   = [Request ip_endpoint; Callback (SyntaxError msg) VNull])
  /\ (forall ip ip_text,
        ToString h ip = Ok ip_text ->
        net h (geo_endpoint ip_text) = Replied resp body ->
        lookup_trace (fetchCoordsByIP h ip) cb
        = [Request (geo_endpoint ip_text); Callback (SyntaxError msg) VNull])
  /\ (forall coords lat_text lon_text,
        result_bind (get coords "latitude") (ToString h) = Ok lat_text ->
        result_bind (get coords "longitude") (ToString h) = Ok lon_text ->
        net h (iss_endpoint lat_text lon_text) = Replied resp body ->
        statusCode resp = 200%Z ->
        lookup_trace (fetchISSFlyOverTimes h coords) cb
        = [Request (iss_endpoint lat_text lon_text);
           Callback (SyntaxError msg) VNull]).
Proof.
  intros Hparse. split; [|split].
  - intros Hnet Hcode. open_ip Hnet. rewrite Hcode. cbn [Z.eqb Pos.eqb negb].
    unfold try_catch, bind, lift, JSON_parse_result. rewrite Hparse. call_once cb.
  - intros ip ip_text Hts Hnet. open_geo Hts Hnet.
    unfold try_catch, bind, lift, JSON_parse_result. rewrite Hparse. call_once cb.
  - intros coords lat_text lon_text Hlat Hlon Hnet Hcode. open_iss Hlat Hlon Hnet.
    rewrite Hcode. cbn [Z.eqb Pos.eqb negb].
    unfold try_catch, bind, lift, JSON_parse_result. rewrite Hparse. call_once cb.
Qed.

(** X3.  The body [null] parses, and reading a property of the parsed
    [null] throws inside the [try]: each lookup hands a TypeError to its
    callback, with a null result. *)
Theorem null_payload_yields_type_error
    (cb : handler_t) (resp : response) (body : string) :
  JSON_parse h body = Parsed VNull ->
  (net h ip_endpoint = Replied resp body -> statusCode resp = 200%Z ->
   exists msg,
     lookup_trace (fetchMyIP h) cb
     = [Request ip_endpoint; Callback (TypeError msg) VNull])
  /\ (forall ip ip_text,
        ToString h ip = Ok ip_text ->
        net h (geo_endpoint ip_text) = Replied resp body ->
        exists msg,
          lookup_trace (fetchCoordsByIP h ip) cb
          = [Request (geo_endpoint ip_text); Callback (TypeError msg) VNull])
  /\ (forall coords lat_text lon_text,
        result_bind (get coords "latitude") (ToString h) = Ok lat_text ->
        result_bind (get coords "longitude") (ToString h) = Ok lon_text ->
        net h (iss_endpoint lat_text lon_text) = Replied resp body ->
        statusCode resp = 200%Z ->
        exists msg,
          lookup_trace (fetchISSFlyOverTimes h coords) cb
          = [Request (iss_endpoint lat_text lon_text);
             Callback (TypeError msg) VNull]).
Proof.
  intros Hparse. split; [|split].
  - intros Hnet Hcode. eexists. open_ip Hnet. rewrite Hcode.
    cbn [Z.eqb Pos.eqb negb].
    unfold try_catch, bind, lift, JSON_parse_result. rewrite Hparse.
    cbn [get]. call_once cb.
  - intros ip ip_text Hts Hnet. eexists. open_geo Hts Hnet.
    unfold try_catch, bind, lift, JSON_parse_result. rewrite Hparse.
    cbn [get]. call_once cb.
  - intros coords lat_text lon_text Hlat Hlon Hnet Hcode. eexists.
    open_iss Hlat Hlon Hnet. rewrite Hcode. cbn [Z.eqb Pos.eqb negb].
    unfold try_catch, bind, lift, JSON_parse_result. rewrite Hparse.
    cbn [get]. call_once cb.
Qed.

(** X4.  On a 200 reply whose body parses to anything but [null], the IP
    Lookup succeeds with whatever [data.ip] evaluates to, and the Overpass
    Lookup with whatever [data.response] evaluates to: the value is handed
    over as it is, and nothing checks that it is a string or a list. *)
Theorem parsed_payload_is_passed_through (resp : response) (body : string)
    (data result : value) :
  statusCode resp = 200%Z -> JSON_parse h body = Parsed data ->
  (net h ip_endpoint = Replied resp body -> get data "ip" = Ok result ->
   succeeds (fetchMyIP h) result)
  /\ (forall coords lat_text lon_text,
        result_bind (get coords "latitude") (ToString h) = Ok lat_text ->
        result_bind (get coords "longitude") (ToString h) = Ok lon_text ->
        net h (iss_endpoint lat_text lon_text) = Replied resp body ->
        get data "response" = Ok result ->
        succeeds (fetchISSFlyOverTimes h coords) result).
Proof.
  intros Hcode Hparse. split.
  - intros Hnet Hget. unfold succeeds, outcome. fold (lookup_trace (fetchMyIP h) quiet).
    open_ip Hnet. rewrite Hcode. cbn [Z.eqb Pos.eqb negb].
    unfold try_catch, bind, lift, JSON_parse_result. rewrite Hparse, Hget.
    reflexivity.
  - intros coords lat_text lon_text Hlat Hlon Hnet Hget. unfold succeeds, outcome.
    fold (lookup_trace (fetchISSFlyOverTimes h coords) quiet).
    open_iss Hlat Hlon Hnet. rewrite Hcode. cbn [Z.eqb Pos.eqb negb].
    unfold try_catch, bind, lift, JSON_parse_result. rewrite Hparse, Hget.
    reflexivity.
Qed.

Lemma deliver_shape (url : string) (d : delivery) (cb : handler_t) :
  exists extra,
    snd (request_get h url (fun _ => deliver d (invoke cb)) [])
    = Request url :: delivered d :: extra /\
    forallb is_callback extra = true /\
    List.length extra <= 1 /\
    (forall e r, delivered d = Callback e r -> cb e r = None -> extra = []).
Proof.
  destruct d as [err | err | r]; unfold request_get, deliver, try_catch, invoke;
    cbn [app delivered].
  - exists []. destruct (cb err VNull); repeat split; auto.
  - destruct (cb err VNull) as [x |] eqn:Hcb.
    + exists [Callback x VNull]. destruct (cb x VNull); repeat split; auto;
        intros e r' [= <- <-]; congruence.
    + exists []. repeat split; auto.
  - destruct (cb VNull r) as [x |] eqn:Hcb.
    + exists [Callback x VNull]. destruct (cb x VNull); repeat split; auto;
        intros e r' [= <- <-]; congruence.
    + exists []. repeat split; auto.
Qed.

Lemma delivered_one_sided (d : delivery) : one_sided (delivered d) = true.
Proof. destruct d; reflexivity. Qed.

(** X5.  A lookup that gets to build its URL issues exactly one request, to
    that URL, whatever its callback does: there is no retry, and no second
    request after the callback threw. *)
Theorem lookup_issues_one_request (cb : handler_t) :
  requests_of (lookup_trace (fetchMyIP h) cb) = [Request ip_endpoint]
  /\ (forall ip ip_text,
        ToString h ip = Ok ip_text ->
        requests_of (lookup_trace (fetchCoordsByIP h ip) cb)
        = [Request (geo_endpoint ip_text)])
  /\ (forall coords lat_text lon_text,
        result_bind (get coords "latitude") (ToString h) = Ok lat_text ->
        result_bind (get coords "longitude") (ToString h) = Ok lon_text ->
        requests_of (lookup_trace (fetchISSFlyOverTimes h coords) cb)
        = [Request (iss_endpoint lat_text lon_text)]).
Proof.
  assert (Hreq : forall url d,
            requests_of (snd (request_get h url (fun _ => deliver d (invoke cb)) []))
            = [Request url]).
  { intros url d. destruct (deliver_shape url d cb) as (extra & -> & Hcalls & Hlen & _).
    unfold requests_of. cbn [filter is_request is_callback negb].
    destruct d; cbn [delivered is_callback negb];
      destruct extra as [| [u | e' r'] [| ? ?]]; cbn in Hcalls, Hlen |- *;
      try reflexivity; try discriminate; lia. }
  split; [|split].
  - destruct fetchMyIP_delivers as (d & _ & H). unfold lookup_trace, run.
    rewrite H. apply Hreq.
  - intros ip ip_text Hts.
    destruct (fetchCoordsByIP_delivers ip)
      as [(err & Hthrow & _) | (ip_text' & d & Hts' & H)]; [congruence|].
    assert (ip_text' = ip_text) as -> by congruence.
    unfold lookup_trace, run. rewrite H. apply Hreq.
  - intros coords lat_text lon_text Hlat Hlon.
    destruct (fetchISSFlyOverTimes_delivers coords)
      as [(err & [He | He] & _) | (lat' & lon' & d & Hlat' & Hlon' & _ & H)];
      try congruence.
    assert (lat' = lat_text) as -> by congruence.
    assert (lon' = lon_text) as -> by congruence.
    unfold lookup_trace, run. rewrite H. apply Hreq.
Qed.

(** X13.  A lookup that gets to build its URL calls its callback at least
    once and at most twice.  The first call has a null error or a null
    result, never both non-null; it is the only call when the callback
    returns from it, and a second call happens only after the callback
    threw. *)
Theorem lookup_calls_back (cb : handler_t) :
  calls_back cb (fetchMyIP h)
  /\ (forall ip ip_text,
        ToString h ip = Ok ip_text -> calls_back cb (fetchCoordsByIP h ip))
  /\ (forall coords lat_text lon_text,
        result_bind (get coords "latitude") (ToString h) = Ok lat_text ->
        result_bind (get coords "longitude") (ToString h) = Ok lon_text ->
        calls_back cb (fetchISSFlyOverTimes h coords)).
Proof.
  unfold calls_back.
  assert (Hcalls : forall url d,
            exists e r extra,
              calls_of (snd (request_get h url (fun _ => deliver d (invoke cb)) []))
              = Callback e r :: extra /\
              is_null e || is_null r = true /\
              List.length extra <= 1 /\
              (cb e r = None -> extra = [])).
  { intros url d.
    destruct (deliver_shape url d cb) as (extra & -> & Hextra & Hlen & Honce).
    pose proof (delivered_one_sided d) as Hside.
    destruct (delivered d) as [u | e r] eqn:Hd; [now destruct d|].
    exists e, r, extra. unfold calls_of. cbn [filter is_callback].
    assert (Hkeep : filter is_callback extra = extra).
    { clear - Hextra. induction extra as [| ev extra IH]; [reflexivity|].
      cbn in Hextra |- *. apply andb_prop in Hextra as [-> Hrest].
      now rewrite IH. }
    rewrite Hkeep. repeat split; auto. exact (Honce e r eq_refl). }
  split; [|split].
  - destruct fetchMyIP_delivers as (d & _ & H). unfold lookup_trace, run.
    rewrite H. apply Hcalls.
  - intros ip ip_text Hts.
    destruct (fetchCoordsByIP_delivers ip)
      as [(err & Hthrow & _) | (ip_text' & d & Hts' & H)]; [congruence|].
    unfold lookup_trace, run. rewrite H. apply Hcalls.
  - intros coords lat_text lon_text Hlat Hlon.
    destruct (fetchISSFlyOverTimes_delivers coords)
      as [(err & [He | He] & _) | (lat' & lon' & d & Hlat' & Hlon' & _ & H)];
      try congruence.
    unfold lookup_trace, run. rewrite H. apply Hcalls.
Qed.

(** X6.  When the URL cannot be built, the Geolocation and Overpass Lookups
    throw on the spot instead of calling back: no request is issued and the
    callback is not run, whatever it is.  So it is when the address or a
    coordinate cannot be rendered as text, and when the coordinates are
    [null] or [undefined]. *)
Theorem unbuildable_url_throws (k : callback_t) (t : trace) :
  (forall ip err,
     ToString h ip = Throw err -> fetchCoordsByIP h ip k t = (Threw err, t))
  /\ (forall coords err,
        result_bind (get coords "latitude") (ToString h) = Throw err ->
        fetchISSFlyOverTimes h coords k t = (Threw err, t))
  /\ (forall coords lat_text err,
        result_bind (get coords "latitude") (ToString h) = Ok lat_text ->
        result_bind (get coords "longitude") (ToString h) = Throw err ->
        fetchISSFlyOverTimes h coords k t = (Threw err, t))
  /\ (exists msg, fetchISSFlyOverTimes h VNull k t = (Threw (TypeError msg), t))
  /\ (exists msg, fetchISSFlyOverTimes h VUndefined k t = (Threw (TypeError msg), t)).
Proof.
  repeat split.
  - intros ip err Hts. unfold fetchCoordsByIP, bind, lift. now rewrite Hts.
  - intros coords err Hlat. unfold fetchISSFlyOverTimes, bind, lift.
    now rewrite Hlat.
  - intros coords lat_text err Hlat Hlon. unfold fetchISSFlyOverTimes, bind, lift.
    now rewrite Hlat, Hlon.
  - eexists. reflexivity.
  - eexists. reflexivity.
Qed.

(** ** The orchestrator, whatever the callback does *)

Lemma succeeds_of_delivery (lookup : callback_t -> M unit) url r :
  (forall k t, lookup k t = request_get h url (fun _ => deliver (Succeed r) k) t) ->
  succeeds lookup r.
Proof.
  intros H. unfold succeeds. now rewrite (@outcome_of_delivery _ _ _ H).
Qed.

(** X7.  Whatever the completion callback does, a run issues one, two or
    three requests and no more: first the IP request; then, if any, the
    geolocation request for the address the IP Lookup produced; then, if
    any, the overpass request for the coordinates the Geolocation Lookup
    produced.  No request is repeated and none is issued out of order. *)
Theorem orchestrator_requests_in_order (cb : handler_t) :
  requests_of (observed h cb) = [Request ip_endpoint]
  \/ exists ip ip_text,
       succeeds (fetchMyIP h) ip /\ ToString h ip = Ok ip_text /\
       (requests_of (observed h cb)
        = [Request ip_endpoint; Request (geo_endpoint ip_text)]
        \/ exists coords lat_text lon_text,
             succeeds (fetchCoordsByIP h ip) coords /\
             result_bind (get coords "latitude") (ToString h) = Ok lat_text /\
             result_bind (get coords "longitude") (ToString h) = Ok lon_text /\
             requests_of (observed h cb)
             = [Request ip_endpoint; Request (geo_endpoint ip_text);
                Request (iss_endpoint lat_text lon_text)]).
Proof.
  unfold observed, run, nextISSTimesForMyLocation.
  destruct fetchMyIP_delivers as (d1 & Hg1 & H1). rewrite H1.
  destruct d1 as [err | err | ip]; [| now elim (Hg1 err) |].
  { left. run_step. unfold invoke. now destruct (cb err VNull). }
  destruct (fetchCoordsByIP_delivers ip)
    as [(err & _ & H2) | (ip_text & d2 & Hts & H2)].
  { left. run_step. rewrite H2. run_step. unfold invoke.
    now destruct (cb err VNull). }
  right. exists ip, ip_text.
  split; [exact (succeeds_of_delivery _ _ _ H1)|]. split; [exact Hts|].
  destruct d2 as [err | err | coords].
  - left. run_step. rewrite H2. run_step. unfold invoke.
    now destruct (cb err VNull).
  - left. run_step. rewrite H2. run_step. unfold invoke.
    destruct (cb err VNull) as [x |]; [|reflexivity].
    destruct (truthy x); [|reflexivity]. now destruct (cb x VNull).
  - destruct (fetchISSFlyOverTimes_delivers coords)
      as [(err & _ & H3) | (lat_text & lon_text & d3 & Hlat & Hlon & Hg3 & H3)].
    { left. run_step. rewrite H2. run_step. rewrite H3. run_step.
      unfold invoke. now destruct (cb err VNull). }
    right. exists coords, lat_text, lon_text.
    split; [exact (succeeds_of_delivery _ _ _ H2)|].
    repeat (split; [assumption|]).
    destruct d3 as [err | err | flyTimes]; [| now elim (Hg3 err) |];
      run_step; rewrite H2; run_step; rewrite H3; run_step; unfold invoke.
    + now destruct (cb err VNull).
    + destruct (cb VNull flyTimes) as [x |]; [|reflexivity].
      destruct (truthy x); [destruct (cb x VNull) | destruct (cb VNull VNull)];
        reflexivity.
Qed.

(** X10.  When a lookup succeeds with a value from which the next URL
    cannot be built, the next lookup throws inside the [try] of the one
    that just succeeded, whose [catch] calls back with the TypeError: the
    completion callback receives that error with a null result, once, and
    no further request is issued. *)
Theorem unusable_result_is_reported (cb : handler_t) (err : js_error) :
  (forall ip,
     succeeds (fetchMyIP h) ip -> ToString h ip = Throw err ->
     observed h cb = [Request ip_endpoint; Callback err VNull])
  /\ (forall ip coords,
        succeeds (fetchMyIP h) ip -> succeeds (fetchCoordsByIP h ip) coords ->
        result_bind (get coords "latitude") (ToString h) = Throw err
        \/ (exists lat_text,
              result_bind (get coords "latitude") (ToString h) = Ok lat_text /\
              result_bind (get coords "longitude") (ToString h) = Throw err) ->
        exists ip_text,
          ToString h ip = Ok ip_text /\
          observed h cb = [Request ip_endpoint; Request (geo_endpoint ip_text);
                           Callback err VNull]).
Proof.
  unfold observed, run, nextISSTimesForMyLocation. split.
  - intros ip Hs1 Hts. pose proof (fetchMyIP_succeeds _ Hs1) as H1.
    rewrite H1. run_step.
    unfold fetchCoordsByIP, bind, lift. rewrite Hts. cbn [truthy].
    unfold invoke. now destruct (cb err VNull).
  - intros ip coords Hs1 Hs2 Hcoords.
    pose proof (fetchMyIP_succeeds _ Hs1) as H1.
    destruct (fetchCoordsByIP_succeeds _ _ Hs2) as (ip_text & Hts & H2).
    exists ip_text. split; [exact Hts|].
    rewrite H1. run_step. rewrite H2. run_step.
    assert (H3 : forall k t, fetchISSFlyOverTimes h coords k t = (Threw err, t)).
    { intros k t. unfold fetchISSFlyOverTimes, bind, lift.
      destruct Hcoords as [Hlat | (lat_text & Hlat & Hlon)].
      - now rewrite Hlat.
      - now rewrite Hlat, Hlon. }
    rewrite H3. cbn [truthy]. unfold invoke. now destruct (cb err VNull).
Qed.

(** ** The program as [index.js] runs it *)

Lemma print_passes_of_records (windows : list (spec_float * spec_float)) :
  print_passes h (map pass_record windows) = Ok tt.
Proof.
  induction windows as [| window windows IH]; [reflexivity|].
  cbn [map print_passes]. now rewrite IH.
Qed.

(** X11.  The callback of [index.js] returns, without throwing, on every
    list of overpass windows [{ risetime, duration }] with numeric fields,
    the empty list included, and on every error. *)
Theorem printPassTimes_accepts_overpass_lists
    (error : value) (windows : list (spec_float * spec_float)) :
  printPassTimes h error (VArr (map pass_record windows)) = None.
Proof.
  unfold printPassTimes. destruct (truthy error); [reflexivity|].
  now rewrite print_passes_of_records.
Qed.

Lemma printPassTimes_throws_errors (error passTimes x : value) :
  printPassTimes h error passTimes = Some x ->
  truthy error = false /\ exists err : js_error, x = err.
Proof.
  unfold printPassTimes. destruct (truthy error); [discriminate|].
  intros H. split; [reflexivity|].
  destruct passTimes; try (injection H as <-; eauto); try discriminate.
  destruct (print_passes h elements); [discriminate|].
  injection H as <-. eauto.
Qed.

Ltac counted :=
  cbn; split; [reflexivity|]; do 2 eexists; split; [reflexivity|]; cbn; lia.

(** X12.  With the callback of [index.js], no run of the orchestrator ends
    in an uncaught exception, on any host: the callback throws only while
    displaying a result, that call sits inside the [try] of
    [fetchISSFlyOverTimes], and the second call, which reports what was
    thrown, returns.  The callback runs once or twice. *)
Theorem shipped_program_never_crashes :
  fst (run (nextISSTimesForMyLocation h (invoke (printPassTimes h)))) = Returned tt
  /\ exists first extra,
       calls_of (observed h (printPassTimes h)) = first :: extra /\
       List.length extra <= 1.
Proof.
  assert (Herr : forall (err : js_error) r, printPassTimes h err r = None)
    by reflexivity.
  unfold observed, run, nextISSTimesForMyLocation.
  destruct fetchMyIP_delivers as (d1 & Hg1 & H1). rewrite H1.
  destruct d1 as [err | err | ip]; [| now elim (Hg1 err) |].
  { run_step. unfold invoke. rewrite Herr. counted. }
  destruct (fetchCoordsByIP_delivers ip)
    as [(err & _ & H2) | (ip_text & d2 & _ & H2)].
  { run_step. rewrite H2. run_step. unfold invoke. rewrite Herr. counted. }
  destruct d2 as [err | err | coords].
  1, 2: run_step; rewrite H2; run_step; unfold invoke; rewrite Herr; counted.
  destruct (fetchISSFlyOverTimes_delivers coords)
    as [(err & _ & H3) | (lat_text & lon_text & d3 & _ & _ & Hg3 & H3)].
  { run_step. rewrite H2. run_step. rewrite H3. run_step.
    unfold invoke. rewrite Herr. counted. }
  destruct d3 as [err | err | flyTimes]; [| now elim (Hg3 err) |];
    run_step; rewrite H2; run_step; rewrite H3; run_step; unfold invoke.
  - rewrite Herr. counted.
  - destruct (printPassTimes h VNull flyTimes) as [x |] eqn:Hthrow; [|counted].
    apply printPassTimes_throws_errors in Hthrow as [_ [err ->]].
    cbn [truthy]. rewrite Herr. counted.
Qed.

(** X14.  When the three lookups succeed and the overpass list is a list of
    windows with numeric fields, the program as [index.js] runs it issues
    its three requests, hands the list to the callback once, and ends
    normally. *)
Theorem shipped_program_displays_list
    (ip coords : value) (windows : list (spec_float * spec_float)) :
  succeeds (fetchMyIP h) ip ->
  succeeds (fetchCoordsByIP h ip) coords ->
  succeeds (fetchISSFlyOverTimes h coords) (VArr (map pass_record windows)) ->
  fst (run (nextISSTimesForMyLocation h (invoke (printPassTimes h)))) = Returned tt
  /\ calls_of (observed h (printPassTimes h))
     = [Callback VNull (VArr (map pass_record windows))]
  /\ List.length (requests_of (observed h (printPassTimes h))) = 3.
Proof.
  intros Hs1 Hs2 Hs3. pose proof (fetchMyIP_succeeds _ Hs1) as H1.
  destruct (fetchCoordsByIP_succeeds _ _ Hs2) as (ip_text & Hts & H2).
  destruct (fetchISSFlyOverTimes_succeeds _ _ Hs3)
    as (lat_text & lon_text & Hlat & Hlon & H3).
  unfold observed, run, nextISSTimesForMyLocation.
  rewrite H1. run_step. rewrite H2. run_step. rewrite H3. run_step.
  unfold invoke, printPassTimes. cbn [truthy]. rewrite print_passes_of_records.
  repeat split.
Qed.

End Properties.

(** ** The status code and the Geolocation Lookup *)

(** C6.  [fetchCoordsByIP] never reads [response.statusCode]: on two hosts
    whose networks answer alike except for the status code, it behaves the
    same, with any callback and after any history. *)
Theorem geolocation_ignores_status_code
    (h : host) (net' : string -> reply) (ip : value)
    (callback : callback_t) (t : trace) :
  (forall url, same_but_status (net h url) (net' url)) ->
  fetchCoordsByIP h ip callback t = fetchCoordsByIP (with_net h net') ip callback t.
Proof.
  intros Hsame. unfold fetchCoordsByIP, request_get, bind, lift.
  change (ToString (with_net h net') ip) with (ToString h ip).
  destruct (ToString h ip) as [ip_text | err]; [|reflexivity].
  cbv beta iota. specialize (Hsame ("https://ipwho.is/" ++ ip_text)).
  cbn [net with_net].
  destruct (net h _) as [e1 | resp1 body1], (net' _) as [e2 | resp2 body2];
    simpl in Hsame; try contradiction; now subst.
Qed.

(** ** The claims on the sample host *)

Example sample_run :
  run (nextISSTimesForMyLocation (sample_host net_ok) (invoke quiet))
  = (Returned tt,
     [Request ip_endpoint; Request sample_geo_url; Request sample_iss_url;
      Callback VNull sample_passes]).
Proof. reflexivity. Qed.

Lemma failing_step_short_circuits_witness :
  observed (sample_host net_down) quiet
  = [Request ip_endpoint; Callback enotfound VNull]
  /\ (exists ip_text extra,
        ToString (sample_host net_refused) sample_ip = Ok ip_text /\
        observed (sample_host net_refused) quiet
        = Request ip_endpoint :: Request (geo_endpoint ip_text)
            :: Callback refusal_error VNull :: extra /\
        forallb is_callback extra = true /\
        (quiet refusal_error VNull = None -> extra = []))
  /\ (exists ip_text lat_text lon_text,
        ToString (sample_host net_boom) sample_ip = Ok ip_text /\
        result_bind (get sample_coordinates "latitude") (ToString (sample_host net_boom))
        = Ok lat_text /\
        result_bind (get sample_coordinates "longitude") (ToString (sample_host net_boom))
        = Ok lon_text /\
        observed (sample_host net_boom) quiet
        = [Request ip_endpoint; Request (geo_endpoint ip_text);
           Request (iss_endpoint lat_text lon_text); Callback boom_error VNull]).
Proof.
  split; [|split].
  - apply (proj1 (failing_step_short_circuits
                    (sample_host net_down) quiet)).
    split; reflexivity.
  - apply (proj1 (proj2 (failing_step_short_circuits
                           (sample_host net_refused) quiet))).
    + reflexivity.
    + split; reflexivity.
  - apply (proj2 (proj2 (failing_step_short_circuits
                           (sample_host net_boom) quiet))
             sample_ip sample_coordinates).
    + reflexivity.
    + reflexivity.
    + split; reflexivity.
Defined.

Lemma success_passes_overpass_list_through_witness :
  exists ip_text lat_text lon_text extra,
    ToString (sample_host net_ok) sample_ip = Ok ip_text /\
    result_bind (get sample_coordinates "latitude") (ToString (sample_host net_ok))
    = Ok lat_text /\
    result_bind (get sample_coordinates "longitude") (ToString (sample_host net_ok))
    = Ok lon_text /\
    observed (sample_host net_ok) quiet
    = Request ip_endpoint :: Request (geo_endpoint ip_text)
        :: Request (iss_endpoint lat_text lon_text)
        :: Callback VNull sample_passes :: extra /\
    forallb is_callback extra = true /\
    (quiet VNull sample_passes = None -> extra = []).
Proof.
  apply (success_passes_overpass_list_through
           (sample_host net_ok) quiet
           sample_ip sample_coordinates sample_passes); reflexivity.
Defined.

Lemma non_200_yields_status_error_witness :
  outcome (fetchMyIP (sample_host net_unavailable))
  = [Callback (Error ("Status Code 503 when fetching IP. "
                      ++ "Response: Service Unavailable")) VNull]
  /\ outcome (fetchISSFlyOverTimes (sample_host net_boom)
                sample_coordinates)
     = [Callback boom_error VNull].
Proof.
  split.
  - apply (proj1 (non_200_yields_status_error (sample_host net_unavailable))
             {| statusCode := 503 |} "Service Unavailable").
    + reflexivity.
    + cbn. lia.
  - apply (proj1 (proj2 (non_200_yields_status_error (sample_host net_boom)))
             sample_coordinates "37.1" "-122.1" {| statusCode := 500 |} "boom").
    + reflexivity.
    + reflexivity.
    + reflexivity.
    + cbn. lia.
Defined.

(** C4, at a failing input.  The body [{}] parses and has neither [ip] nor
    [response].  The header comments of [fetchMyIP] and
    [fetchISSFlyOverTimes] promise the callback an error, or else the IP
    string, respectively the array of fly-over times; both lookups call
    back with a null error and [undefined], and neither fails. *)
Lemma missing_field_is_not_an_error :
  outcome (fetchMyIP (sample_host net_empty_ip)) = [Callback VNull VUndefined]
  /\ outcome (fetchISSFlyOverTimes (sample_host net_empty_overpass)
                sample_coordinates)
     = [Callback VNull VUndefined]
  /\ ~ (exists e, fails (fetchMyIP (sample_host net_empty_ip)) e)
  /\ ~ (exists e, fails (fetchISSFlyOverTimes (sample_host net_empty_overpass)
                           sample_coordinates) e).
Proof.
  repeat split; try reflexivity.
  - intros (e & He & Ht). vm_compute in He. injection He as <-. discriminate Ht.
  - intros (e & He & Ht). vm_compute in He. injection He as <-. discriminate Ht.
Qed.

Lemma missing_field_yields_undefined_witness :
  outcome (fetchMyIP (sample_host net_empty_ip)) = [Callback VNull VUndefined]
  /\ outcome (fetchISSFlyOverTimes (sample_host net_empty_overpass)
                sample_coordinates)
     = [Callback VNull VUndefined].
Proof.
  split.
  - apply (proj1 (missing_field_yields_undefined (sample_host net_empty_ip))
             {| statusCode := 200 |} "{}" []);
      reflexivity.
  - apply (proj2 (missing_field_yields_undefined (sample_host net_empty_overpass))
             sample_coordinates "37.1" "-122.1" {| statusCode := 200 |} "{}" []);
      reflexivity.
Defined.

(** C3 as the spec has it fails on the sample host: the payload's message
    is "Invalid IP address", and the error the lookup yields has another
    message, whatever its name. *)
Lemma refusal_message_is_not_verbatim :
  sample_parse refusal_body = Parsed refusal_payload
  /\ get refusal_payload "success" = Ok (VBool false)
  /\ get refusal_payload "message" = Ok (VStr "Invalid IP address")
  /\ outcome (fetchCoordsByIP (sample_host net_refused) sample_ip)
     = [Callback refusal_error VNull]
  /\ ~ (exists error_name,
          outcome (fetchCoordsByIP (sample_host net_refused) sample_ip)
          = [Callback (VError (mkError error_name "Invalid IP address")) VNull]).
Proof.
  repeat split; try reflexivity.
  intros (error_name & H). vm_compute in H. discriminate H.
Qed.

Lemma unsuccessful_payload_reports_server_message_witness :
  outcome (fetchCoordsByIP (sample_host net_refused) sample_ip)
  = [Callback (Error ("Success status was false. Server message says: "
                      ++ "Invalid IP address" ++ " when fetching for IP "
                      ++ "1.2.3.4")) VNull]
  /\ outcome (fetchCoordsByIP odd_refusal_host sample_ip)
     = [Callback cannot_convert VNull].
Proof.
  split.
  - apply (proj1 (unsuccessful_payload_reports_server_message
                    (sample_host net_refused)
                    sample_ip "1.2.3.4" {| statusCode := 200 |}
                    refusal_body refusal_payload
                    eq_refl eq_refl eq_refl eq_refl)).
  - apply (proj1 (unsuccessful_payload_reports_server_message
                    odd_refusal_host
                    sample_ip "1.2.3.4" {| statusCode := 200 |}
                    odd_refusal_body odd_refusal_payload
                    eq_refl eq_refl eq_refl eq_refl)).
Defined.

Lemma geolocation_ignores_status_code_witness :
  fetchCoordsByIP (sample_host (always 200 geo_body))
    sample_ip (invoke quiet) []
  = fetchCoordsByIP (sample_host (always 404 geo_body))
      sample_ip (invoke quiet) [].
Proof.
  apply geolocation_ignores_status_code. intros url. reflexivity.
Defined.

(** The IP Lookup, by contrast, does read the status code. *)
Example ip_lookup_reads_status_code :
  outcome (fetchMyIP (sample_host (always 200 ip_body)))
  <> outcome (fetchMyIP (sample_host (always 404 ip_body))).
Proof. discriminate. Qed.

Lemma falsy_success_is_an_error_witness :
  (forall coords,
     succeeds (fetchCoordsByIP zero_host sample_ip) coords ->
     exists properties success,
       zero_payload = VObj properties /\
       own_property properties "success" = Some success /\
       truthy success = true)
  /\ exists (err : js_error) shown_success,
       outcome (fetchCoordsByIP zero_host sample_ip) = [Callback err VNull] /\
       ToString zero_host (VNum (S754_zero false)) = Ok shown_success /\
       forall msg shown_ip,
         result_bind (get zero_payload "message") (ToString zero_host) = Ok msg ->
         result_bind (get zero_payload "ip") (ToString zero_host) = Ok shown_ip ->
         err = Error ("Success status was " ++ shown_success
                      ++ ". Server message says: " ++ msg
                      ++ " when fetching for IP " ++ shown_ip).
Proof.
  assert (H := falsy_success_is_an_error zero_host
                 sample_ip "1.2.3.4" {| statusCode := 200 |} zero_body zero_payload
                 eq_refl eq_refl eq_refl).
  split.
  - exact (proj1 H).
  - apply (proj2 H (VNum (S754_zero false))); reflexivity.
Defined.

(** The three falsy cases the claim names, on the sample host: [false],
    [0], and no [success] at all. *)
Example falsy_success_samples :
  outcome (fetchCoordsByIP (sample_host net_refused) sample_ip)
  = [Callback refusal_error VNull]
  /\ outcome (fetchCoordsByIP (sample_host net_zero_success) sample_ip)
     = [Callback (Error ("Success status was 0. Server message says: undefined"
                         ++ " when fetching for IP undefined")) VNull]
  /\ outcome (fetchCoordsByIP (sample_host (always 200 "{}")) sample_ip)
     = [Callback (Error ("Success status was undefined. Server message says: "
                         ++ "undefined when fetching for IP undefined")) VNull].
Proof. repeat split. Qed.

Lemma truthy_success_returns_unvalidated_coordinates_witness :
  exists properties,
    bare_payload = VObj properties /\
    let coordinates := VObj [("latitude", field properties "latitude");
                             ("longitude", field properties "longitude")] in
    succeeds (fetchCoordsByIP bare_host sample_ip) coordinates /\
    (own_property properties "latitude" = None ->
     field properties "latitude" = VUndefined) /\
    (own_property properties "longitude" = None ->
     field properties "longitude" = VUndefined) /\
    forall cb lat_text lon_text,
      succeeds (fetchMyIP bare_host) sample_ip ->
      ToString bare_host (field properties "latitude") = Ok lat_text ->
      ToString bare_host (field properties "longitude") = Ok lon_text ->
      In (Request (iss_endpoint lat_text lon_text)) (observed bare_host cb).
Proof.
  apply (truthy_success_returns_unvalidated_coordinates bare_host
           sample_ip "1.2.3.4" {| statusCode := 200 |} bare_body bare_payload
           (VBool true)); reflexivity.
Defined.

(** With no [latitude] and no [longitude] in the payload, the orchestrator
    asks the overpass service about [undefined] coordinates. *)
Example undefined_coordinates_are_passed_on :
  observed (sample_host net_bare_success) quiet
  = [Request ip_endpoint; Request sample_geo_url;
     Request (iss_endpoint "undefined" "undefined");
     Callback enotfound VNull].
Proof. reflexivity. Qed.

(** C7, at failing inputs.  Two calls of the callback sit inside a [try]
    whose [catch] calls the callback again: the success call that ends
    [fetchISSFlyOverTimes], and the call that reports an unsuccessful
    geolocation payload.  A completion callback that throws there is
    invoked a second time, with what it threw.  So it is with a callback
    that fails to display a good list, with the callback of [index.js] when
    the overpass payload has no [response], and with a callback that throws
    on a geolocation refusal. *)
Theorem throwing_callback_is_invoked_twice :
  observed (sample_host net_ok) failing_display
  = [Request ip_endpoint; Request sample_geo_url; Request sample_iss_url;
     Callback VNull sample_passes;
     Callback (Error "cannot display") VNull]
  /\ observed (sample_host net_empty_overpass)
       (printPassTimes (sample_host net_empty_overpass))
     = [Request ip_endpoint; Request sample_geo_url; Request sample_iss_url;
        Callback VNull VUndefined;
        Callback (TypeError "passTimes is not iterable") VNull]
  /\ observed (sample_host net_refused) always_failing
     = [Request ip_endpoint; Request sample_geo_url;
        Callback refusal_error VNull;
        Callback (Error "cannot display") VNull].
Proof. repeat split. Qed.

(** ** The further properties on the sample hosts *)

Lemma transport_error_is_passed_on_witness :
  lookup_trace (fetchMyIP (sample_host net_down)) always_failing
  = [Request ip_endpoint; Callback enotfound VNull]
  /\ lookup_trace (fetchCoordsByIP (sample_host net_down) sample_ip) always_failing
     = [Request sample_geo_url; Callback enotfound VNull]
  /\ lookup_trace (fetchISSFlyOverTimes (sample_host net_down) sample_coordinates)
       always_failing
     = [Request sample_iss_url; Callback enotfound VNull].
Proof.
  pose proof (transport_error_is_passed_on (sample_host net_down)
                always_failing enotfound) as (H1 & H2 & H3).
  split; [|split].
  - apply H1. reflexivity.
  - apply (H2 sample_ip "1.2.3.4"); reflexivity.
  - apply (H3 sample_coordinates "37.1" "-122.1"); reflexivity.
Defined.

Lemma unparsable_body_yields_syntax_error_witness :
  lookup_trace (fetchMyIP (sample_host (always 200 html_body))) quiet
  = [Request ip_endpoint; Callback unexpected_token VNull]
  /\ lookup_trace (fetchCoordsByIP (sample_host (always 200 html_body)) sample_ip)
       quiet
     = [Request sample_geo_url; Callback unexpected_token VNull]
  /\ lookup_trace (fetchISSFlyOverTimes (sample_host (always 200 html_body))
                     sample_coordinates) quiet
     = [Request sample_iss_url; Callback unexpected_token VNull].
Proof.
  pose proof (unparsable_body_yields_syntax_error
                (sample_host (always 200 html_body)) quiet
                {| statusCode := 200 |} html_body
                "Unexpected token in JSON: <html>" eq_refl) as (H1 & H2 & H3).
  split; [|split].
  - apply H1; reflexivity.
  - apply (H2 sample_ip "1.2.3.4"); reflexivity.
  - apply (H3 sample_coordinates "37.1" "-122.1"); reflexivity.
Defined.

Lemma null_payload_yields_type_error_witness :
  (exists msg,
     lookup_trace (fetchMyIP (sample_host (always 200 "null"))) quiet
     = [Request ip_endpoint; Callback (TypeError msg) VNull])
  /\ (exists msg,
        lookup_trace (fetchCoordsByIP (sample_host (always 200 "null")) sample_ip)
          quiet
        = [Request sample_geo_url; Callback (TypeError msg) VNull])
  /\ (exists msg,
        lookup_trace (fetchISSFlyOverTimes (sample_host (always 200 "null"))
                        sample_coordinates) quiet
        = [Request sample_iss_url; Callback (TypeError msg) VNull]).
Proof.
  pose proof (null_payload_yields_type_error
                (sample_host (always 200 "null")) quiet
                {| statusCode := 200 |} "null" eq_refl) as (H1 & H2 & H3).
  split; [|split].
  - apply H1; reflexivity.
  - apply (H2 sample_ip "1.2.3.4"); reflexivity.
  - apply (H3 sample_coordinates "37.1" "-122.1"); reflexivity.
Defined.

Lemma parsed_payload_is_passed_through_witness :
  succeeds (fetchMyIP (sample_host net_ok)) sample_ip
  /\ succeeds (fetchISSFlyOverTimes (sample_host net_ok) sample_coordinates)
       sample_passes.
Proof.
  split.
  - apply (proj1 (parsed_payload_is_passed_through (sample_host net_ok)
                    {| statusCode := 200 |} ip_body
                    (VObj [("ip", VStr "1.2.3.4")]) sample_ip eq_refl eq_refl));
      reflexivity.
  - apply (proj2 (parsed_payload_is_passed_through (sample_host net_ok)
                    {| statusCode := 200 |} iss_body
                    (VObj [("response", sample_passes)]) sample_passes
                    eq_refl eq_refl)
             sample_coordinates "37.1" "-122.1"); reflexivity.
Defined.

Lemma lookup_issues_one_request_witness :
  requests_of (lookup_trace (fetchCoordsByIP (sample_host net_refused) sample_ip)
                 always_failing)
  = [Request sample_geo_url]
  /\ requests_of (lookup_trace (fetchISSFlyOverTimes (sample_host net_ok)
                                  sample_coordinates) failing_display)
     = [Request sample_iss_url].
Proof.
  split.
  - apply (proj1 (proj2 (lookup_issues_one_request (sample_host net_refused)
                           always_failing)) sample_ip "1.2.3.4").
    reflexivity.
  - apply (proj2 (proj2 (lookup_issues_one_request (sample_host net_ok)
                           failing_display)) sample_coordinates "37.1" "-122.1");
      reflexivity.
Defined.

Lemma lookup_calls_back_witness :
  calls_back always_failing (fetchCoordsByIP (sample_host net_refused) sample_ip)
  /\ calls_back failing_display
       (fetchISSFlyOverTimes (sample_host net_ok) sample_coordinates).
Proof.
  split.
  - apply (proj1 (proj2 (lookup_calls_back (sample_host net_refused)
                           always_failing)) sample_ip "1.2.3.4").
    reflexivity.
  - apply (proj2 (proj2 (lookup_calls_back (sample_host net_ok) failing_display))
             sample_coordinates "37.1" "-122.1"); reflexivity.
Defined.

Lemma unbuildable_url_throws_witness :
  fetchCoordsByIP (sample_host net_ok) unrenderable (invoke quiet) []
  = (Threw cannot_convert, [])
  /\ fetchISSFlyOverTimes (sample_host net_ok) odd_coordinates (invoke quiet) []
     = (Threw cannot_convert, [])
  /\ fetchISSFlyOverTimes (sample_host net_ok)
       (VObj [("latitude", VUndefined); ("longitude", unrenderable)])
       (invoke quiet) []
     = (Threw cannot_convert, []).
Proof.
  pose proof (unbuildable_url_throws (sample_host net_ok) (invoke quiet) [])
    as (H1 & H2 & H3 & _).
  split; [|split].
  - apply H1. reflexivity.
  - apply H2. reflexivity.
  - apply (H3 _ "undefined"); reflexivity.
Defined.

Lemma callback_invoked_once_when_it_returns_witness :
  fst (run (nextISSTimesForMyLocation (sample_host net_ok) (invoke quiet)))
  = Returned tt
  /\ exists e r,
       filter is_callback (observed (sample_host net_ok) quiet) = [Callback e r] /\
       (truthy e = true /\ r = VNull \/ e = VNull).
Proof.
  apply callback_invoked_once_when_it_returns. reflexivity.
Defined.

Lemma unusable_result_is_reported_witness :
  observed (odd_host net_odd_ip) always_failing
  = [Request ip_endpoint; Callback cannot_convert VNull]
  /\ exists ip_text,
       ToString (odd_host net_odd_geo) sample_ip = Ok ip_text /\
       observed (odd_host net_odd_geo) always_failing
       = [Request ip_endpoint; Request (geo_endpoint ip_text);
          Callback cannot_convert VNull].
Proof.
  split.
  - apply (proj1 (unusable_result_is_reported (odd_host net_odd_ip)
                    always_failing cannot_convert) unrenderable); reflexivity.
  - apply (proj2 (unusable_result_is_reported (odd_host net_odd_geo)
                    always_failing cannot_convert) sample_ip odd_coordinates).
    + reflexivity.
    + reflexivity.
    + left. reflexivity.
Defined.

Lemma shipped_program_displays_list_witness :
  fst (run (nextISSTimesForMyLocation (sample_host net_ok)
              (invoke (printPassTimes (sample_host net_ok))))) = Returned tt
  /\ calls_of (observed (sample_host net_ok) (printPassTimes (sample_host net_ok)))
     = [Callback VNull (VArr (map pass_record sample_windows))]
  /\ List.length (requests_of (observed (sample_host net_ok)
                                 (printPassTimes (sample_host net_ok)))) = 3.
Proof.
  apply (shipped_program_displays_list (sample_host net_ok)
           sample_ip sample_coordinates sample_windows); reflexivity.
Defined.

(** ** The short circuit and a callback that throws *)

(** C1, at a failing input.  The geolocation service refuses, so the second
    step fails, and the completion callback, handed that error, does
    [throw undefined].  The call sits inside the [try] of
    [fetchCoordsByIP], whose [catch] calls back with what was thrown; the
    orchestrator takes the falsy [undefined] for "no error" and invokes
    [fetchISSFlyOverTimes] on the [null] result.  That lookup runs as far
    as reading [coords.latitude], and the run ends in its uncaught
    TypeError. *)
Theorem falsy_throw_reaches_overpass_lookup :
  succeeds (fetchMyIP (sample_host net_refused)) sample_ip
  /\ fails (fetchCoordsByIP (sample_host net_refused) sample_ip) refusal_error
  /\ run (nextISSTimesForMyLocation (sample_host net_refused)
            (invoke throws_undefined))
     = (Uncaught latitude_of_null,
        [Request ip_endpoint; Request sample_geo_url;
         Callback refusal_error VNull])
  /\ (forall k t,
        fetchISSFlyOverTimes (sample_host net_refused) VNull k t
        = (Threw latitude_of_null, t)).
Proof. repeat split. Qed.
